(** * matrix-charts: aggregation of measurement logs into chart series

    A shallow embedding of the two Go programs of the repository
    ([main.go], which renders the four matrix pages, and its extended
    variant, which also renders the battery page) and the properties of
    their metric aggregators and of the load step.

    Conventions of the embedding.
    - [int64] and [int] values are integers of [Z]; the only arithmetic the
      programs perform on them, the [int64] subtraction of [bleToWifi], is
      written with its wrap-around ([sub64]).
    - A Go [map[string]T] is a [gmap string T].  A [for _, v := range m]
      loop visits every entry once in an order the language leaves
      unspecified: each aggregator takes the sequence of entries the loop
      visits, and [ranges m kvs] says that [kvs] is such a sequence for [m].
    - A slice is a list; [append(s, x)] is [s ++ [x]] and [len(s)] is
      [Z.of_nat (length s)].
    - [float32] and [float64] values are [spec_float]s of the Standard
      Library (sign, mantissa, binary exponent). *)

From Stdlib Require Import ZArith NArith List Ascii String Bool Lia.
From Stdlib Require Import Floats.SpecFloat.
From stdpp Require Import gmap strings list fin_maps.

Local Open Scope Z_scope.

(** ** Machine integers *)

Definition wrap64 (z : Z) : Z := (z + 2 ^ 63) mod 2 ^ 64 - 2 ^ 63.

Definition in_int64 (z : Z) : Prop := - 2 ^ 63 <= z < 2 ^ 63.

(** [a - b] on [int64] operands. *)
Definition sub64 (a b : Z) : Z := wrap64 (a - b).

(** ** Values stored behind [interface{}] *)

Definition float32 := spec_float.
Definition float64 := spec_float.

Inductive GoValue : Type :=
| VInt (z : Z)
| VInt64 (z : Z)
| VFloat64 (f : float64)
| VString (s : string).

(** ** The log records *)

Module ContentMatrix.
Record t := {
  Tag : string;
  Size : Z;
  AvgSpeed : float32;
  DownloadStartedAt : Z;
  DownloadFinishedAt : Z;
  ProvidedBy : list string
}.
End ContentMatrix.

Module ConnectionInfo.
Record t := {
  BLEDiscoveredAt : Z;
  WifiConnectedAt : Z;
  RSSI : Z;
  Speed : Z;
  Frequency : Z;
  IPFSConnectedAt : Z;
  DisconnectedAt : Z
}.
End ConnectionInfo.

Module DiscoveredNodeMatrix.
Record t := {
  ConnectionAlive : bool;
  ConnectionSuccessCount : Z;
  ConnectionFailureCount : Z;
  LastSuccessfulConnectionDuration : Z;
  BLEDiscoveredAt : Z;
  WifiConnectedAt : Z;
  RSSI : Z;
  Speed : Z;
  Frequency : Z;
  IPFSConnectedAt : Z;
  DiscoveryDelays : list Z;
  ConnectionHistory : list ConnectionInfo.t
}.
End DiscoveredNodeMatrix.

Record matrix := {
  ContentMatrix : gmap string ContentMatrix.t;
  NodeMatrix : gmap string DiscoveredNodeMatrix.t;
  TotalUptime : Z
}.

Module Measurement.
Record t := {
  DataTransfer : string;
  TransferInterval : string;
  BatteryConsumption : string
}.
End Measurement.

Record BatteryMeasurements := {
  BatteryMeasurement : list Measurement.t
}.

(** ** Traversal of a Go map *)

(** [ranges m kvs]: [kvs] is a sequence of entries that a [range] loop
    over [m] may visit, that is, every entry of [m] exactly once, in any
    order. *)
Definition ranges {V : Type} (m : gmap string V) (kvs : list (string * V)) : Prop :=
  kvs ≡ₚ map_to_list m.

(** ** The chart values of the charting library

    Only what the programs set is kept: the options are recorded as the
    calls that set them, the data as the slices handed over.  The
    identifier that the library draws at random for every new chart, and
    prints in the page, is left out: an equality of charts is an equality
    of what the programs set, and says nothing of the identifiers. *)

Module opts.
Record LineData := { LineValue : GoValue }.
Record BarData := { BarValue : GoValue }.
Record ParallelData := { ParallelValue : list GoValue }.
Record ParallelAxis := { Dim : Z; Name : string }.
End opts.

Module charts.
Inductive GlobalOpts : Type :=
| WithTitleOpts (Title : string)
| WithXAxisOpts (Name : string)
| WithYAxisOpts (Name : string)
| WithTooltipOpts (Show : bool)
| WithLegendOpts (Show : bool) (Left : string)
| WithParallelAxisList (axes : list opts.ParallelAxis).

(** [Opacity] is given in tenths: the programs only use [0.2]. *)
Inductive SeriesOpts : Type :=
| WithAreaStyleOpts (OpacityTenths : Z)
| WithLineChartOpts (Smooth : bool)
| WithLabelOpts (Show : bool) (Position : string).

Record Chart (X D : Type) := {
  GlobalOptions : list GlobalOpts;
  XAxis : list X;
  MultiSeries : list (string * list D);
  SeriesOptions : list SeriesOpts
}.
Arguments GlobalOptions {X D} _.
Arguments XAxis {X D} _.
Arguments MultiSeries {X D} _.
Arguments SeriesOptions {X D} _.

Definition New {X D : Type} : Chart X D :=
  {| GlobalOptions := []; XAxis := []; MultiSeries := []; SeriesOptions := [] |}.

Definition SetGlobalOptions {X D : Type} (os : list GlobalOpts) (c : Chart X D) : Chart X D :=
  {| GlobalOptions := GlobalOptions c ++ os; XAxis := XAxis c;
     MultiSeries := MultiSeries c; SeriesOptions := SeriesOptions c |}.

Definition SetXAxis {X D : Type} (xs : list X) (c : Chart X D) : Chart X D :=
  {| GlobalOptions := GlobalOptions c; XAxis := xs;
     MultiSeries := MultiSeries c; SeriesOptions := SeriesOptions c |}.

Definition AddSeries {X D : Type} (name : string) (data : list D) (c : Chart X D) : Chart X D :=
  {| GlobalOptions := GlobalOptions c; XAxis := XAxis c;
     MultiSeries := MultiSeries c ++ [(name, data)]; SeriesOptions := SeriesOptions c |}.

Definition SetSeriesOptions {X D : Type} (os : list SeriesOpts) (c : Chart X D) : Chart X D :=
  {| GlobalOptions := GlobalOptions c; XAxis := XAxis c;
     MultiSeries := MultiSeries c; SeriesOptions := SeriesOptions c ++ os |}.

Definition Line := Chart Z opts.LineData.
Definition Bar := Chart string opts.BarData.
Definition Parallel := Chart Empty_set opts.ParallelData.

Definition NewLine : Line := New.
Definition NewBar : Bar := New.
Definition NewParallel : Parallel := New.
End charts.

(** The data of the series called [name], if the chart has one. *)
Definition series {X D : Type} (name : string) (c : charts.Chart X D) : option (list D) :=
  snd <$> List.find (fun s => String.eqb (fst s) name) (charts.MultiSeries c).

(** The y-value of a point of a line chart. *)
Definition yvalue (d : opts.LineData) : GoValue := opts.LineValue d.

(** ** The loops of the matrix aggregators

    The four loops are the same in both programs.  Each takes the entries
    that the [range] over the map visits, in the order of the visit, and
    returns the slices it has built. *)

Definition Axes : Type := list Z * list opts.LineData.

(** [xAxis = append(xAxis, len(xAxis)); yAxis = append(yAxis, LineData{Value: v})] *)
Definition emit (v : GoValue) (acc : Axes) : Axes :=
  (fst acc ++ [Z.of_nat (length (fst acc))], snd acc ++ [opts.Build_LineData v]).

Definition bleToWifi_entry (acc : Axes) (k : ConnectionInfo.t) : Axes :=
  if negb (ConnectionInfo.WifiConnectedAt k =? 0)
  then emit (VInt64 (sub64 (ConnectionInfo.WifiConnectedAt k) (ConnectionInfo.BLEDiscoveredAt k))) acc
  else acc.

Definition bleToWifi_loop (nodes : list (string * DiscoveredNodeMatrix.t)) : Axes :=
  fold_left
    (fun acc v => fold_left bleToWifi_entry (DiscoveredNodeMatrix.ConnectionHistory (snd v)) acc)
    nodes ([], []).

Definition bleToIpfs_entry (acc : Axes) (k : Z) : Axes := emit (VInt64 k) acc.

Definition bleToIpfs_loop (nodes : list (string * DiscoveredNodeMatrix.t)) : Axes :=
  fold_left
    (fun acc v => fold_left bleToIpfs_entry (DiscoveredNodeMatrix.DiscoveryDelays (snd v)) acc)
    nodes ([], []).

Definition rssiSpeed_entry (items : list opts.ParallelData) (k : ConnectionInfo.t)
  : list opts.ParallelData :=
  items ++ [opts.Build_ParallelData [VInt (ConnectionInfo.RSSI k); VInt (ConnectionInfo.Speed k)]].

Definition rssiSpeed_loop (nodes : list (string * DiscoveredNodeMatrix.t))
  : list opts.ParallelData :=
  fold_left
    (fun items v => fold_left rssiSpeed_entry (DiscoveredNodeMatrix.ConnectionHistory (snd v)) items)
    nodes [].

Definition parallelAxisList : list opts.ParallelAxis :=
  [opts.Build_ParallelAxis 0 "RSSI"; opts.Build_ParallelAxis 1 "Speed"].

(** ** Formatting and parsing of floating-point numbers

    [downloadSpeed] calls [fmt.Sprintf("%.1f", x)] on a [float32] and
    [strconv.ParseFloat(s, 64)] on the result.  Both belong to Go's
    library; they are modelled here on their documented behaviour.

    The verb [%.1f] prints the exact value of the number rounded to one
    digit after the decimal point, ties to the even digit, with a [-] for
    every negative number (also for a negative zero), and prints [NaN],
    [+Inf] and [-Inf] for the three special values. *)

Definition digit_char (d : N) : ascii := ascii_of_N (48 + d).

Fixpoint decimal_digits (fuel : nat) (n : N) : list ascii :=
  match fuel with
  | O => []
  | S fuel' =>
      (if (n <? 10)%N then [] else decimal_digits fuel' (n / 10)%N)
        ++ [digit_char (n mod 10)%N]
  end.

(** The decimal digits of [n], most significant first, without leading
    zeros ([0] is printed as one digit). *)
Definition FormatUint (n : N) : list ascii :=
  decimal_digits (S (N.to_nat (N.log2 n))) n.

(** The integer nearest to [10 * m * 2^e], ties to even. *)
Definition tenths (m : positive) (e : Z) : N :=
  match e with
  | Zneg p =>
      let d := (2 ^ Npos p)%N in
      let q := (10 * Npos m / d)%N in
      let r := (10 * Npos m mod d)%N in
      match (2 * r ?= d)%N with
      | Lt => q
      | Gt => (q + 1)%N
      | Eq => if N.even q then q else (q + 1)%N
      end
  | _ => (10 * Npos m * 2 ^ Z.to_N e)%N
  end.

Definition sign_chars (neg : bool) : list ascii :=
  if neg then ["-"%char] else [].

Definition fmt_1f (x : spec_float) : list ascii :=
  match x with
  | S754_nan => list_ascii_of_string "NaN"
  | S754_infinity false => list_ascii_of_string "+Inf"
  | S754_infinity true => list_ascii_of_string "-Inf"
  | S754_zero s => sign_chars s ++ list_ascii_of_string "0.0"
  | S754_finite s m e =>
      let t := tenths m e in
      sign_chars s ++ FormatUint (t / 10)%N ++ ["."%char] ++ [digit_char (t mod 10)%N]
  end.

(** [fmt.Sprintf("%.1f", x)] *)
Definition Sprintf_1f (x : float32) : string := string_of_list_ascii (fmt_1f x).

(** [strconv.ParseFloat] reads an optional sign, decimal digits with at
    most one point, and an optional decimal exponent, or one of the names
    of the special values (in any letter case); the whole string has to be
    consumed.  The result is the floating-point number nearest to the
    decimal, ties to even.  On a syntax error the number returned is [0];
    on a decimal too large for the format it is an infinity, with
    [ErrRange].  Hexadecimal mantissas and underscores between digits,
    which Go also reads, are left out: the model rejects them, and [%.1f]
    never prints either. *)

Inductive NumError : Type := ErrSyntax | ErrRange.

Definition is_digit (c : ascii) : bool :=
  let n := N_of_ascii c in ((48 <=? n) && (n <=? 57))%N.

Definition digit_val (c : ascii) : N := (N_of_ascii c - 48)%N.

Definition lower (c : ascii) : ascii :=
  let n := N_of_ascii c in
  if ((65 <=? n) && (n <=? 90))%N then ascii_of_N (n + 32) else c.

Definition ascii_list_eqb (a b : list ascii) : bool :=
  String.eqb (string_of_list_ascii a) (string_of_list_ascii b).

Definition strip_sign (s : list ascii) : bool * list ascii :=
  match s with
  | "+"%char :: r => (false, r)
  | "-"%char :: r => (true, r)
  | _ => (false, s)
  end.

Definition special (s : list ascii) : option spec_float :=
  let l := map lower s in
  if ascii_list_eqb l (list_ascii_of_string "nan") then Some S754_nan
  else
    let '(neg, r) := strip_sign l in
    if ascii_list_eqb r (list_ascii_of_string "inf")
       || ascii_list_eqb r (list_ascii_of_string "infinity")
    then Some (S754_infinity neg)
    else None.

(** The digits of the mantissa: [mant] is the number read so far, [frac]
    the number of digits read after the point. *)
Fixpoint scan_mantissa (s : list ascii) (sawdot sawdigits : bool) (mant : N) (frac : Z)
  : bool * N * Z * list ascii :=
  match s with
  | [] => (sawdigits, mant, frac, [])
  | c :: r =>
      if Ascii.eqb c "."%char then
        if sawdot then (sawdigits, mant, frac, s)
        else scan_mantissa r true sawdigits mant frac
      else if is_digit c then
        scan_mantissa r sawdot true (10 * mant + digit_val c)%N
          (if sawdot then frac + 1 else frac)
      else (sawdigits, mant, frac, s)
  end.

Fixpoint scan_digits (s : list ascii) (acc : N) : N * list ascii :=
  match s with
  | c :: r => if is_digit c then scan_digits r (10 * acc + digit_val c)%N else (acc, s)
  | [] => (acc, [])
  end.

(** The optional exponent: [None] when an exponent letter is not followed
    by a well-formed exponent. *)
Definition scan_exponent (s : list ascii) : option (Z * list ascii) :=
  match s with
  | c :: r =>
      if Ascii.eqb (lower c) "e"%char then
        let '(eneg, r') := strip_sign r in
        match r' with
        | d :: _ =>
            if is_digit d then
              let '(e, rest) := scan_digits r' 0%N in
              Some (if eneg then - Z.of_N e else Z.of_N e, rest)
            else None
        | [] => None
        end
      else Some (0, s)
  | [] => Some (0, [])
  end.

(** The number of precision [prec] and exponent bound [emax] nearest to
    [mant * 10^exp10], with the sign [neg]. *)
Definition decimal_to_float (prec emax : Z) (neg : bool) (mant : N) (exp10 : Z)
  : spec_float * option NumError :=
  match mant with
  | N0 => (S754_zero neg, None)
  | Npos m =>
      let f :=
        match exp10 with
        | Zneg p => SFdiv prec emax (S754_finite neg m 0) (S754_finite false (10 ^ p) 0)
        | _ => binary_round prec emax neg (m * Z.to_pos (10 ^ exp10)) 0
        end in
      match f with
      | S754_infinity _ => (f, Some ErrRange)
      | _ => (f, None)
      end
  end.

Definition parse_float (prec emax : Z) (s : list ascii) : spec_float * option NumError :=
  match special s with
  | Some f => (f, None)
  | None =>
      let '(neg, r) := strip_sign s in
      let '(sawdigits, mant, frac, r1) := scan_mantissa r false false 0%N 0 in
      if sawdigits then
        match scan_exponent r1 with
        | Some (e, []) => decimal_to_float prec emax neg mant (e - frac)
        | _ => (S754_zero false, Some ErrSyntax)
        end
      else (S754_zero false, Some ErrSyntax)
  end.

(** [strconv.ParseFloat(s, 64)] *)
Definition ParseFloat (s : string) : float64 * option NumError :=
  parse_float 53 1024 (list_ascii_of_string s).

(** The [float32] that the decoder of the log stores for a decimal numeral
    [mant * 10^exp10] of the log. *)
Definition float32_of_decimal (neg : bool) (mant : N) (exp10 : Z) : float32 :=
  fst (decimal_to_float 24 128 neg mant exp10).

(** ** The loop of [downloadSpeed] *)

Definition downloadSpeed_entry (acc : Axes) (v : ContentMatrix.t) : Axes :=
  let xAxis := fst acc ++ [Z.of_nat (length (fst acc))] in
  let s := Sprintf_1f (ContentMatrix.AvgSpeed v) in
  let '(f, _) := ParseFloat s in
  (xAxis, snd acc ++ [opts.Build_LineData (VFloat64 f)]).

Definition downloadSpeed_loop (contents : list (string * ContentMatrix.t)) : Axes :=
  fold_left (fun acc v => downloadSpeed_entry acc (snd v)) contents ([], []).

(** "AvgSpeed rounded to one decimal place", as the specification words
    it: the [float64] nearest to the decimal with one digit after the
    point that is nearest to the number. *)
Definition round_one_decimal (x : float32) : float64 :=
  match x with
  | S754_finite s m e => fst (decimal_to_float 53 1024 s (tenths m e) (-1))
  | _ => x
  end.

(** ** The world of a run

    The file system, and the trace of the calls that a run has made so
    far.  [log.Fatal] ends the process: a computation either yields a
    value or has exited. *)

Inductive Error : Type :=
| IOError (path : string)
| ParseError
| RenderError.

Inductive Event : Type :=
| EvReadFile (path : string)
| EvUnmarshal
| EvAggregate (name : string)
| EvCreate (path : string)
| EvRender (path : string)
| EvFatal (msg : string) (err : Error)
| EvListenAndServe (addr : string).

Record World := {
  files : gmap string string;
  unreadable : gset string;
  unwritable : gset string;
  trace : list Event
}.

Definition record (ev : Event) (w : World) : World :=
  {| files := files w; unreadable := unreadable w; unwritable := unwritable w;
     trace := trace w ++ [ev] |}.

Definition write (path contents : string) (w : World) : World :=
  {| files := <[path := contents]> (files w); unreadable := unreadable w;
     unwritable := unwritable w; trace := trace w |}.

Inductive Result (A : Type) : Type :=
| Exited (msg : string) (err : Error)
| Val (a : A).
Arguments Exited {A} msg err.
Arguments Val {A} a.

Definition Proc (A : Type) : Type := World -> World * Result A.

Definition ret {A : Type} (a : A) : Proc A := fun w => (w, Val a).

Definition bind {A B : Type} (m : Proc A) (k : A -> Proc B) : Proc B :=
  fun w =>
    match m w with
    | (w', Val a) => k a w'
    | (w', Exited msg err) => (w', Exited msg err)
    end.

Notation "x <- m ;; k" := (bind m (fun x => k))
  (at level 100, m at next level, right associativity).
Notation "m ;;; k" := (bind m (fun _ => k))
  (at level 100, right associativity).

(** [log.Fatal(msg, err.Error())] *)
Definition Fatal {A : Type} (msg : string) (err : Error) : Proc A :=
  fun w => (record (EvFatal msg err) w, Exited msg err).

(** [ioutil.ReadFile(path)]: fails when the file is missing or cannot be
    read. *)
Definition ReadFile (path : string) : Proc (string + Error) :=
  fun w =>
    (record (EvReadFile path) w,
     Val match files w !! path with
         | Some contents =>
             if decide (path ∈ unreadable w) then inr (IOError path) else inl contents
         | None => inr (IOError path)
         end).

(** [os.Create(path)]: creates the file or truncates it. *)
Definition Create (path : string) : Proc (string + Error) :=
  fun w =>
    if decide (path ∈ unwritable w)
    then (record (EvCreate path) w, Val (inr (IOError path)))
    else (record (EvCreate path) (write path EmptyString w), Val (inl path)).

(** The call of an aggregator, entered in the trace. *)
Definition aggregate {A : Type} (name : string) (chart : A) : Proc A :=
  fun w => (record (EvAggregate name) w, Val chart).

Inductive Charter : Type :=
| LineChart (c : charts.Line)
| ParallelChart (c : charts.Parallel)
| BarChart (c : charts.Bar).

Module components.
Record Page := { PageTitle : string; Charts : list Charter }.
End components.

(** [json.Unmarshal(file, data)], for the decoder [decode] of the record
    that [data] points to: [None] when the text does not have the shape of
    the record. *)
Definition Unmarshal {A : Type} (decode : string -> option A) (file : string)
  : Proc (A + Error) :=
  fun w =>
    (record EvUnmarshal w,
     Val match decode file with Some data => inl data | None => inr ParseError end).

(** [page.Render(io.MultiWriter(f))], for the renderer [Render] of the
    charting library, which gives the text written and the error returned,
    if any.  [Render] stands for the one rendering of a page in a run: the
    text of the library also holds the random identifiers of the charts,
    so that nothing is to be read from applying [Render] twice. *)
Definition RenderTo (Render : components.Page -> string * option Error)
    (f : string) (page : components.Page) : Proc (option Error) :=
  fun w =>
    let '(html, err) := Render page in
    (record (EvRender f) (write f html w), Val err).

Definition logPath (pageName : string) : string := "logs/" ++ pageName ++ ".log".
Definition htmlPath (pageName : string) : string := "html/" ++ pageName ++ ".html".

(** [for _, v := range names { err := render(v); if err != nil { log.Fatal(...) } }] *)
Fixpoint renderAll (render : string -> Proc (option Error)) (names : list string) : Proc unit :=
  match names with
  | [] => ret tt
  | v :: rest =>
      err <- render v ;;
      match err with
      | Some e => Fatal "Page render failed " e
      | None => renderAll render rest
      end
  end.

(** The server never returns: the run ends in the state in which it
    listens. *)
Definition ListenAndServe (addr : string) : Proc unit :=
  fun w => (record (EvListenAndServe addr) w, Val tt).

(** The orders in which the [range] loops of one page visit the maps: one
    for each of the three loops over [NodeMatrix] (named after the
    aggregator) and one for the loop over [ContentMatrix]. *)
Record Ranges := {
  range_nodes :
    string -> gmap string DiscoveredNodeMatrix.t -> list (string * DiscoveredNodeMatrix.t);
  range_contents : gmap string ContentMatrix.t -> list (string * ContentMatrix.t)
}.

Definition valid_ranges (rng : Ranges) : Prop :=
  (forall loop m, ranges m (range_nodes rng loop m)) /\
  (forall m, ranges m (range_contents rng m)).

(** ** The battery aggregator's loop *)

Definition BarItems : Type := list opts.BarData * list opts.BarData.

Definition battery_entry (acc : BarItems) (v : Measurement.t) : BarItems :=
  if String.eqb (Measurement.DataTransfer v) "10" then
    (fst acc ++ [opts.Build_BarData (VString (Measurement.BatteryConsumption v))], snd acc)
  else if String.eqb (Measurement.DataTransfer v) "100" then
    (fst acc, snd acc ++ [opts.Build_BarData (VString (Measurement.BatteryConsumption v))])
  else acc.

Definition battery_loop (ms : list Measurement.t) : BarItems :=
  fold_left battery_entry ms ([], []).

(** ** The program with the battery page *)

Module part_000.
Import charts.

Definition matrixFiles : list string :=
  ["zero_host_downloader"; "zero_client_uploader"; "five_host_downloader";
   "five_client_uploader"].
Definition batteryMeasurementFiles : list string := ["battery_measurements"].

Definition transferIntervalToBatteryPercentage (data : BatteryMeasurements) : Bar :=
  let bar :=
    SetGlobalOptions
      [WithTitleOpts "Battery Consumption after 3 hours of transfer";
       WithTooltipOpts true; WithLegendOpts true "80%"] NewBar in
  let '(tenMbItems, hundredMbItems) := battery_loop (BatteryMeasurement data) in
  SetSeriesOptions [WithLabelOpts true "insideTop"]
    (AddSeries "100Mb" hundredMbItems
       (AddSeries "10Mb" tenMbItems (SetXAxis ["40s"; "120s"] bar))).

Definition bleToWifi (nodes : list (string * DiscoveredNodeMatrix.t)) : Line :=
  let line :=
    SetGlobalOptions
      [WithTitleOpts "Seconds from BLE discovery to Successful Wifi connection";
       WithXAxisOpts "Count"; WithYAxisOpts "Seconds";
       WithTooltipOpts true; WithLegendOpts true "80%"] NewLine in
  let '(xAxis, yAxis) := bleToWifi_loop nodes in
  SetSeriesOptions [WithAreaStyleOpts 2; WithLineChartOpts true]
    (AddSeries "BLE to Wifi" yAxis (SetXAxis xAxis line)).

Definition bleToIpfs (nodes : list (string * DiscoveredNodeMatrix.t)) : Line :=
  let line :=
    SetGlobalOptions
      [WithTitleOpts "Seconds from BLE discovery to Successful IPFS connection";
       WithXAxisOpts "Count"; WithYAxisOpts "Seconds";
       WithTooltipOpts true; WithLegendOpts true "80%"] NewLine in
  let '(xAxis, yAxis) := bleToIpfs_loop nodes in
  SetSeriesOptions [WithAreaStyleOpts 2; WithLineChartOpts true]
    (AddSeries "BLE to IPFS" yAxis (SetXAxis xAxis line)).

Definition rssiSpeed (nodes : list (string * DiscoveredNodeMatrix.t)) : Parallel :=
  let parallel :=
    SetGlobalOptions
      [WithTitleOpts "RSSI Speed"; WithParallelAxisList parallelAxisList;
       WithTooltipOpts true; WithLegendOpts true "80%"] NewParallel in
  let items := rssiSpeed_loop nodes in
  AddSeries "RSSI Speed" items parallel.

Definition downloadSpeed (contents : list (string * ContentMatrix.t)) : Line :=
  let line :=
    SetGlobalOptions
      [WithTitleOpts "Download Speed"; WithXAxisOpts "Count"; WithYAxisOpts "MBps";
       WithTooltipOpts true; WithLegendOpts true "80%"] NewLine in
  let '(xAxis, yAxis) := downloadSpeed_loop contents in
  SetSeriesOptions [WithAreaStyleOpts 2]
    (AddSeries "Download Speed" yAxis (SetXAxis xAxis line)).

Section Run.
(** The decoders of [json.Unmarshal] for the two records, the page
    renderer of the charting library, and the orders of the [range]
    loops of each page. *)
Variable Unmarshal_matrix : string -> option matrix.
Variable Unmarshal_battery : string -> option BatteryMeasurements.
Variable Render : components.Page -> string * option Error.
Variable rng : string -> Ranges.

Definition renderBatteryMeasurementPage (pageName : string) : Proc (option Error) :=
  file <- ReadFile (logPath pageName) ;;
  match file with
  | inr err => Fatal "matrix file missing " err
  | inl file =>
      data <- Unmarshal Unmarshal_battery file ;;
      match data with
      | inr err => Fatal "matrix file missing " err
      | inl data =>
          c <- aggregate "transferIntervalToBatteryPercentage"
                 (transferIntervalToBatteryPercentage data) ;;
          let page :=
            {| components.PageTitle := "Datahop Battery Measurement Charts";
               components.Charts := [BarChart c] |} in
          f <- Create (htmlPath pageName) ;;
          match f with
          | inr err => Fatal "unable to create file " err
          | inl f => RenderTo Render f page
          end
      end
  end.

Definition renderMatrixPage (pageName : string) : Proc (option Error) :=
  file <- ReadFile (logPath pageName) ;;
  match file with
  | inr err => Fatal "matrix file missing " err
  | inl file =>
      data <- Unmarshal Unmarshal_matrix file ;;
      match data with
      | inr err => Fatal "matrix file missing " err
      | inl data =>
          let r := rng pageName in
          c1 <- aggregate "bleToWifi"
                  (bleToWifi (range_nodes r "bleToWifi" (NodeMatrix data))) ;;
          c2 <- aggregate "bleToIpfs"
                  (bleToIpfs (range_nodes r "bleToIpfs" (NodeMatrix data))) ;;
          c3 <- aggregate "rssiSpeed"
                  (rssiSpeed (range_nodes r "rssiSpeed" (NodeMatrix data))) ;;
          c4 <- aggregate "downloadSpeed"
                  (downloadSpeed (range_contents r (ContentMatrix data))) ;;
          let page :=
            {| components.PageTitle := "Datahop Matrix Charts";
               components.Charts :=
                 [LineChart c1; LineChart c2; ParallelChart c3; LineChart c4] |} in
          f <- Create (htmlPath pageName) ;;
          match f with
          | inr err => Fatal "unable to create file " err
          | inl f => RenderTo Render f page
          end
      end
  end.

Definition main : Proc unit :=
  renderAll renderMatrixPage matrixFiles ;;;
  renderAll renderBatteryMeasurementPage batteryMeasurementFiles ;;;
  ListenAndServe "localhost:8089".
End Run.
End part_000.

(** ** The program of [main.go] *)

Module main_go.
Import charts.

Definition files : list string :=
  ["zero_host_downloader"; "zero_client_uploader"; "five_host_downloader";
   "five_client_uploader"].

Definition bleToWifi (nodes : list (string * DiscoveredNodeMatrix.t)) : Line :=
  let line :=
    SetGlobalOptions
      [WithTitleOpts "Seconds from BLE discovery to Successful Wifi connection";
       WithXAxisOpts "Count"; WithYAxisOpts "Seconds"] NewLine in
  let '(xAxis, yAxis) := bleToWifi_loop nodes in
  SetSeriesOptions [WithAreaStyleOpts 2; WithLineChartOpts true]
    (AddSeries "BLE to Wifi" yAxis (SetXAxis xAxis line)).

Definition bleToIpfs (nodes : list (string * DiscoveredNodeMatrix.t)) : Line :=
  let line :=
    SetGlobalOptions
      [WithTitleOpts "Seconds from BLE discovery to Successful IPFS connection";
       WithXAxisOpts "Count"; WithYAxisOpts "Seconds"] NewLine in
  let '(xAxis, yAxis) := bleToIpfs_loop nodes in
  SetSeriesOptions [WithAreaStyleOpts 2; WithLineChartOpts true]
    (AddSeries "BLE to IPFS" yAxis (SetXAxis xAxis line)).

Definition rssiSpeed (nodes : list (string * DiscoveredNodeMatrix.t)) : Parallel :=
  let parallel :=
    SetGlobalOptions
      [WithTitleOpts "RSSI Speed"; WithParallelAxisList parallelAxisList] NewParallel in
  let items := rssiSpeed_loop nodes in
  AddSeries "RSSI Speed" items parallel.

Definition downloadSpeed (contents : list (string * ContentMatrix.t)) : Line :=
  let line :=
    SetGlobalOptions
      [WithTitleOpts "Download Speed"; WithXAxisOpts "Count"; WithYAxisOpts "MBps"]
      NewLine in
  let '(xAxis, yAxis) := downloadSpeed_loop contents in
  SetSeriesOptions [WithAreaStyleOpts 2]
    (AddSeries "Download Speed" yAxis (SetXAxis xAxis line)).

Section Run.
Variable Unmarshal_matrix : string -> option matrix.
Variable Render : components.Page -> string * option Error.
Variable rng : string -> Ranges.

Definition renderPage (pageName : string) : Proc (option Error) :=
  file <- ReadFile (logPath pageName) ;;
  match file with
  | inr err => Fatal "matrix file missing " err
  | inl file =>
      data <- Unmarshal Unmarshal_matrix file ;;
      match data with
      | inr err => Fatal "matrix file missing " err
      | inl data =>
          let r := rng pageName in
          c1 <- aggregate "bleToWifi"
                  (bleToWifi (range_nodes r "bleToWifi" (NodeMatrix data))) ;;
          c2 <- aggregate "bleToIpfs"
                  (bleToIpfs (range_nodes r "bleToIpfs" (NodeMatrix data))) ;;
          c3 <- aggregate "rssiSpeed"
                  (rssiSpeed (range_nodes r "rssiSpeed" (NodeMatrix data))) ;;
          c4 <- aggregate "downloadSpeed"
                  (downloadSpeed (range_contents r (ContentMatrix data))) ;;
          let page :=
            {| components.PageTitle := "Datahop Matrix Charts";
               components.Charts :=
                 [LineChart c1; LineChart c2; ParallelChart c3; LineChart c4] |} in
          f <- Create (htmlPath pageName) ;;
          match f with
          | inr err => Fatal "unable to create file " err
          | inl f => RenderTo Render f page
          end
      end
  end.

Definition main : Proc unit :=
  renderAll renderPage files ;;;
  ListenAndServe "localhost:8089".
End Run.
End main_go.

(** ** What the loops emit *)

(** The entries of all the connection histories, and all the discovery
    delays, in the order in which the loops meet them. *)
Definition history_entries (nodes : list (string * DiscoveredNodeMatrix.t))
  : list ConnectionInfo.t :=
  flat_map (fun v => DiscoveredNodeMatrix.ConnectionHistory (snd v)) nodes.

Definition delay_entries (nodes : list (string * DiscoveredNodeMatrix.t)) : list Z :=
  flat_map (fun v => DiscoveredNodeMatrix.DiscoveryDelays (snd v)) nodes.

Definition wifi_connected (k : ConnectionInfo.t) : bool :=
  negb (ConnectionInfo.WifiConnectedAt k =? 0).

Definition wifi_delay (k : ConnectionInfo.t) : GoValue :=
  VInt64 (sub64 (ConnectionInfo.WifiConnectedAt k) (ConnectionInfo.BLEDiscoveredAt k)).

Definition rssi_speed_point (k : ConnectionInfo.t) : opts.ParallelData :=
  opts.Build_ParallelData [VInt (ConnectionInfo.RSSI k); VInt (ConnectionInfo.Speed k)].

(** Sums over the entries of a map, in the map's own order. *)
Definition total {V : Type} (f : V -> nat) (m : gmap string V) : nat :=
  sum_list (map (fun kv => f (snd kv)) (map_to_list m)).

(** The points emitted for a list of values, one after the other. *)
Definition emit_all (vs : list GoValue) (acc : Axes) : Axes :=
  fold_left (fun acc v => emit v acc) vs acc.

(** The x-values [0, 1, ..., n-1]. *)
Definition counter (n : nat) : list Z := map Z.of_nat (seq 0 n).

(** ** Sample logs *)

Definition connection (ble wifi rssi speed : Z) : ConnectionInfo.t :=
  {| ConnectionInfo.BLEDiscoveredAt := ble; ConnectionInfo.WifiConnectedAt := wifi;
     ConnectionInfo.RSSI := rssi; ConnectionInfo.Speed := speed;
     ConnectionInfo.Frequency := 2412; ConnectionInfo.IPFSConnectedAt := 0;
     ConnectionInfo.DisconnectedAt := 0 |}.

Definition node (delays : list Z) (history : list ConnectionInfo.t)
  : DiscoveredNodeMatrix.t :=
  {| DiscoveredNodeMatrix.ConnectionAlive := false;
     DiscoveredNodeMatrix.ConnectionSuccessCount := 0;
     DiscoveredNodeMatrix.ConnectionFailureCount := 0;
     DiscoveredNodeMatrix.LastSuccessfulConnectionDuration := 0;
     DiscoveredNodeMatrix.BLEDiscoveredAt := 0;
     DiscoveredNodeMatrix.WifiConnectedAt := 0;
     DiscoveredNodeMatrix.RSSI := 0;
     DiscoveredNodeMatrix.Speed := 0;
     DiscoveredNodeMatrix.Frequency := 0;
     DiscoveredNodeMatrix.IPFSConnectedAt := 0;
     DiscoveredNodeMatrix.DiscoveryDelays := delays;
     DiscoveredNodeMatrix.ConnectionHistory := history |}.

(** The node of the scenario of the specification. *)
Definition scenario_node : DiscoveredNodeMatrix.t :=
  node [7; 9] [connection 100 105 (-60) 54; connection 200 0 (-71) 0].

Definition scenario_matrix : matrix :=
  {| ContentMatrix := ∅; NodeMatrix := {["QmNode" := scenario_node]}; TotalUptime := 300 |}.

Definition scenario_nodes : list (string * DiscoveredNodeMatrix.t) :=
  [("QmNode", scenario_node)].

(** The value that [downloadSpeed] stores for an [AvgSpeed]. *)
Definition speed_value (x : float32) : GoValue :=
  VFloat64 (fst (ParseFloat (Sprintf_1f x))).

(** A second node, and the two orders in which a [range] may visit a map
    that holds it next to the node of the scenario. *)
Definition second_node : DiscoveredNodeMatrix.t :=
  node [3] [connection 50 80 (-48) 72].

Definition two_nodes_matrix : matrix :=
  {| ContentMatrix := ∅;
     NodeMatrix := <["QmOther" := second_node]> {["QmNode" := scenario_node]};
     TotalUptime := 300 |}.

Definition two_nodes_order1 : list (string * DiscoveredNodeMatrix.t) :=
  [("QmNode", scenario_node); ("QmOther", second_node)].

Definition two_nodes_order2 : list (string * DiscoveredNodeMatrix.t) :=
  [("QmOther", second_node); ("QmNode", scenario_node)].

(** ** What the battery loop emits *)

Definition bar_item (v : Measurement.t) : opts.BarData :=
  opts.Build_BarData (VString (Measurement.BatteryConsumption v)).

Definition transfers (size : string) (v : Measurement.t) : bool :=
  String.eqb (Measurement.DataTransfer v) size.

(** The two inputs agree on everything but [TransferInterval]. *)
Definition same_but_interval (a b : Measurement.t) : Prop :=
  Measurement.DataTransfer a = Measurement.DataTransfer b /\
  Measurement.BatteryConsumption a = Measurement.BatteryConsumption b.

Definition measurement (transfer interval consumption : string) : Measurement.t :=
  {| Measurement.DataTransfer := transfer; Measurement.TransferInterval := interval;
     Measurement.BatteryConsumption := consumption |}.

Definition sample_battery : BatteryMeasurements :=
  {| BatteryMeasurement :=
       [measurement "10" "40" "1.5"; measurement "100" "40" "4";
        measurement "50" "40" "2"; measurement "10" "120" "1"] |}.

Definition sample_battery' : BatteryMeasurements :=
  {| BatteryMeasurement :=
       [measurement "10" "5" "1.5"; measurement "100" "" "4";
        measurement "50" "forty" "2"; measurement "10" "40" "1"] |}.

(** ** What a run leaves untouched *)

(** The log of the page cannot be read. *)
Definition cannot_read (w : World) (path : string) : Prop :=
  files w !! path = None \/ path ∈ unreadable w.

(** The error of the load step of a page, if it has one. *)
Definition load_error {A : Type} (decode : string -> option A) (w : World) (name : string)
  : option Error :=
  match files w !! logPath name with
  | Some contents =>
      if decide (logPath name ∈ unreadable w) then Some (IOError (logPath name))
      else match decode contents with
           | Some _ => None
           | None => Some ParseError
           end
  | None => Some (IOError (logPath name))
  end.

(** From [w] to [w'] the file at [path] has been neither created nor
    truncated nor written. *)
Definition untouched (path : string) (w w' : World) : Prop :=
  files w' !! path = files w !! path /\
  exists evs, trace w' = trace w ++ evs /\
              ~ In (EvCreate path) evs /\ ~ In (EvRender path) evs.

(** From [w] to [w'] only the output files of the pages [ps] may have
    been touched. *)
Definition pages_frame (ps : list string) (w w' : World) : Prop :=
  (forall q, (forall p, In p ps -> q <> htmlPath p) -> files w' !! q = files w !! q) /\
  unreadable w' = unreadable w /\
  unwritable w' = unwritable w /\
  exists evs, trace w' = trace w ++ evs /\
              (forall q, In (EvCreate q) evs -> exists p, In p ps /\ q = htmlPath p) /\
              (forall q, In (EvRender q) evs -> exists p, In p ps /\ q = htmlPath p).

(** A run that has exited, with the world it has left. *)
Definition exits {A : Type} (run : World * Result A) (w' : World) : Prop :=
  exists msg err, run = (w', Exited msg err).

(** ** Sample worlds *)

Definition no_decoder {A : Type} (file : string) : option A := None.

Definition blank_renderer (page : components.Page) : string * option Error :=
  (EmptyString, None).

Definition map_order : Ranges :=
  {| range_nodes := fun _ m => map_to_list m; range_contents := fun m => map_to_list m |}.

(** Nothing on the disk. *)
Definition empty_world : World :=
  {| files := ∅; unreadable := ∅; unwritable := ∅; trace := [] |}.


(** From [w] to [w'] only output files of pages other than [name] may
    have been touched. *)
Definition keeps (name : string) (w w' : World) : Prop :=
  exists ps, ~ In name ps /\ pages_frame ps w w'.

(** The world in which the load step of a page leaves a run that it ends
    with the error [err]. *)
Definition load_failure (name : string) (err : Error) (w : World) : World :=
  match err with
  | ParseError =>
      record (EvFatal "matrix file missing " err)
        (record EvUnmarshal (record (EvReadFile (logPath name)) w))
  | _ =>
      record (EvFatal "matrix file missing " err) (record (EvReadFile (logPath name)) w)
  end.

(** The renderer of a page ends the run in its load step whenever that
    has an error, and touches at most the output file of its page. *)
Definition page_renderer {A : Type} (decode : string -> option A)
    (render : string -> Proc (option Error)) : Prop :=
  (forall p w, pages_frame [p] w (fst (render p w))) /\
  (forall p w err, load_error decode w p = Some err ->
     render p w = (load_failure p err w, Exited "matrix file missing " err)).

(** ** Reading digits back *)

(** The number that a run of digits denotes after [acc]. *)
Definition digits_value (acc : N) (ds : list ascii) : N :=
  fold_left (fun a c => (10 * a + digit_val c)%N) ds acc.

Definition all_digits (ds : list ascii) : Prop :=
  Forall (fun c => is_digit c = true) ds.

(** ** Sample contents *)

(** The [float32] of the numeral [3.14] of a log, and the [float64] of
    the numeral [3.1]. *)
Definition avg_3_14 : float32 := float32_of_decimal false 314 (-2).
Definition f64_3_1 : float64 := S754_finite false 6980579422424269 (-51).

Definition content (tag : string) (speed : float32) : ContentMatrix.t :=
  {| ContentMatrix.Tag := tag; ContentMatrix.Size := 1048576;
     ContentMatrix.AvgSpeed := speed; ContentMatrix.DownloadStartedAt := 100;
     ContentMatrix.DownloadFinishedAt := 130; ContentMatrix.ProvidedBy := [] |}.

Definition content_matrix : matrix :=
  {| ContentMatrix := {["tag" := content "tag" avg_3_14]}; NodeMatrix := ∅;
     TotalUptime := 300 |}.

Definition content_order : list (string * ContentMatrix.t) :=
  [("tag", content "tag" avg_3_14)].

(** A world with the four matrix logs and the battery log, and decoders
    that read every text as the scenario's matrix and the sample battery
    list. *)
Definition decode_scenario (file : string) : option matrix := Some scenario_matrix.

Definition decode_sample_battery (file : string) : option BatteryMeasurements :=
  Some sample_battery.

Definition full_world : World :=
  {| files :=
       list_to_map
         (map (fun name => (logPath name, "{}"%string))
            (part_000.matrixFiles ++ part_000.batteryMeasurementFiles));
     unreadable := ∅; unwritable := ∅; trace := [] |}.

(** The same world without the log of the third page. *)
Definition third_missing_world : World :=
  {| files := delete (logPath "five_host_downloader") (files full_world);
     unreadable := ∅; unwritable := ∅; trace := [] |}.

(** ** The pages of a run *)

(** The record that the load step of a page yields, when it has no
    error. *)
Definition loaded {A : Type} (decode : string -> option A) (w : World) (name : string)
  : option A :=
  match files w !! logPath name with
  | Some contents =>
      if decide (logPath name ∈ unreadable w) then None else decode contents
  | None => None
  end.

(** The page that [renderMatrixPage] composes from a decoded log. *)
Definition matrix_page (r : Ranges) (data : matrix) : components.Page :=
  {| components.PageTitle := "Datahop Matrix Charts";
     components.Charts :=
       [LineChart (part_000.bleToWifi (range_nodes r "bleToWifi" (NodeMatrix data)));
        LineChart (part_000.bleToIpfs (range_nodes r "bleToIpfs" (NodeMatrix data)));
        ParallelChart (part_000.rssiSpeed (range_nodes r "rssiSpeed" (NodeMatrix data)));
        LineChart (part_000.downloadSpeed (range_contents r (ContentMatrix data)))] |}.

(** The page that [renderPage] of [main.go] composes. *)
Definition matrix_page_go (r : Ranges) (data : matrix) : components.Page :=
  {| components.PageTitle := "Datahop Matrix Charts";
     components.Charts :=
       [LineChart (main_go.bleToWifi (range_nodes r "bleToWifi" (NodeMatrix data)));
        LineChart (main_go.bleToIpfs (range_nodes r "bleToIpfs" (NodeMatrix data)));
        ParallelChart (main_go.rssiSpeed (range_nodes r "rssiSpeed" (NodeMatrix data)));
        LineChart (main_go.downloadSpeed (range_contents r (ContentMatrix data)))] |}.

(** The page that [renderBatteryMeasurementPage] composes. *)
Definition battery_page (data : BatteryMeasurements) : components.Page :=
  {| components.PageTitle := "Datahop Battery Measurement Charts";
     components.Charts := [BarChart (part_000.transferIntervalToBatteryPercentage data)] |}.

(** The calls that a page renderer makes between the load and the
    output, for the aggregators named [aggs]. *)
Definition page_events (name : string) (aggs : list string) : list Event :=
  [EvReadFile (logPath name); EvUnmarshal] ++ map EvAggregate aggs.

Definition matrix_aggregators : list string :=
  ["bleToWifi"; "bleToIpfs"; "rssiSpeed"; "downloadSpeed"].

Definition battery_aggregators : list string := ["transferIntervalToBatteryPercentage"].

(** What a page renderer does with a page whose log loads: [page_of] is
    the page it composes, [aggs] the aggregators it calls.  When the
    output file can be created the renderer returns what the renderer of
    the charting library returns and leaves its text in the file;
    otherwise it ends the run, and no file has changed. *)
Definition page_writer {A : Type} (decode : string -> option A)
    (Render : components.Page -> string * option Error)
    (page_of : string -> A -> components.Page) (aggs : list string)
    (render : string -> Proc (option Error)) : Prop :=
  forall name w data,
    loaded decode w name = Some data ->
    let page := page_of name data in
    if decide (htmlPath name ∈ unwritable w) then
      render name w
      = ({| files := files w; unreadable := unreadable w; unwritable := unwritable w;
            trace := trace w ++ page_events name aggs
                       ++ [EvCreate (htmlPath name);
                           EvFatal "unable to create file " (IOError (htmlPath name))] |},
         Exited "unable to create file " (IOError (htmlPath name)))
    else
      render name w
      = ({| files := <[htmlPath name := fst (Render page)]> (files w);
            unreadable := unreadable w; unwritable := unwritable w;
            trace := trace w ++ page_events name aggs
                       ++ [EvCreate (htmlPath name); EvRender (htmlPath name)] |},
         Val (snd (Render page))).

(** Every page of [names] loads, can be written and is rendered without
    error. *)
Definition all_pages_ok {A : Type} (decode : string -> option A)
    (Render : components.Page -> string * option Error)
    (page_of : string -> A -> components.Page) (names : list string) (w : World) : Prop :=
  forall name, In name names ->
    (htmlPath name ∉ unwritable w) /\
    exists data, loaded decode w name = Some data /\
                 snd (Render (page_of name data)) = None.

(** A renderer of the charting library that fails on every page after
    writing a part of it. *)
Definition failing_renderer (page : components.Page) : string * option Error :=
  ("<html>"%string, Some RenderError).

(** The world with every log, in which the first output cannot be
    created. *)
Definition readonly_world : World :=
  {| files := files full_world; unreadable := ∅;
     unwritable := {[ "html/zero_host_downloader.html"%string ]}; trace := [] |}.

(** The calls of a page renderer for a page that it renders. *)
Definition rendered_events (aggs : list string) (name : string) : list Event :=
  page_events name aggs ++ [EvCreate (htmlPath name); EvRender (htmlPath name)].

(** From [w] to [w'] no file has disappeared. *)
Definition never_deletes (w w' : World) : Prop :=
  forall q, is_Some (files w !! q) -> is_Some (files w' !! q).

(** The world that rendering the pages [names] leaves, when every page
    is rendered: each output holds the text of its page. *)
Definition pages_rendered {A : Type} (decode : string -> option A)
    (Render : components.Page -> string * option Error)
    (page_of : string -> A -> components.Page) (aggs : list string)
    (names : list string) (w w' : World) : Prop :=
  (forall name data, In name names -> loaded decode w name = Some data ->
     files w' !! htmlPath name = Some (fst (Render (page_of name data)))) /\
  (forall q, (forall name, In name names -> q <> htmlPath name) ->
     files w' !! q = files w !! q) /\
  unreadable w' = unreadable w /\
  unwritable w' = unwritable w /\
  trace w' = trace w ++ concat (map (rendered_events aggs) names).

(** The world with every matrix log and without the battery log. *)
Definition battery_missing_world : World :=
  {| files := delete (logPath "battery_measurements") (files full_world);
     unreadable := ∅; unwritable := ∅; trace := [] |}.

(** [f] is a zero or a finite number of sign [s]. *)
Definition finite_of_sign (s : bool) (f : spec_float) : Prop :=
  f = S754_zero s \/ exists m e, f = S754_finite s m e.

(** The timestamps of the entry are [int64]s that are not negative. *)
Definition unix_times (k : ConnectionInfo.t) : Prop :=
  0 <= ConnectionInfo.BLEDiscoveredAt k < 2 ^ 63 /\
  0 <= ConnectionInfo.WifiConnectedAt k < 2 ^ 63.

(** Two history entries with the same two timestamps; with the same
    signal strength and speed. *)
Definition same_times (k k' : ConnectionInfo.t) : Prop :=
  ConnectionInfo.BLEDiscoveredAt k = ConnectionInfo.BLEDiscoveredAt k' /\
  ConnectionInfo.WifiConnectedAt k = ConnectionInfo.WifiConnectedAt k'.

Definition same_signal (k k' : ConnectionInfo.t) : Prop :=
  ConnectionInfo.RSSI k = ConnectionInfo.RSSI k' /\
  ConnectionInfo.Speed k = ConnectionInfo.Speed k'.

(** Two visits of nodes whose histories agree entry by entry in the
    sense of [R], whatever their ids and their other fields. *)
Definition histories_agree (R : ConnectionInfo.t -> ConnectionInfo.t -> Prop)
    (nodes nodes' : list (string * DiscoveredNodeMatrix.t)) : Prop :=
  Forall2 (fun v v' =>
             Forall2 R (DiscoveredNodeMatrix.ConnectionHistory (snd v))
               (DiscoveredNodeMatrix.ConnectionHistory (snd v')))
    nodes nodes'.

(** A node and a content record that differ from the samples in the
    fields that no aggregator reads. *)
Definition scenario_node_renamed : DiscoveredNodeMatrix.t :=
  {| DiscoveredNodeMatrix.ConnectionAlive := true;
     DiscoveredNodeMatrix.ConnectionSuccessCount := 4;
     DiscoveredNodeMatrix.ConnectionFailureCount := 1;
     DiscoveredNodeMatrix.LastSuccessfulConnectionDuration := 60;
     DiscoveredNodeMatrix.BLEDiscoveredAt := 200;
     DiscoveredNodeMatrix.WifiConnectedAt := 0;
     DiscoveredNodeMatrix.RSSI := -71;
     DiscoveredNodeMatrix.Speed := 0;
     DiscoveredNodeMatrix.Frequency := 5180;
     DiscoveredNodeMatrix.IPFSConnectedAt := 0;
     DiscoveredNodeMatrix.DiscoveryDelays := [];
     DiscoveredNodeMatrix.ConnectionHistory :=
       [connection 100 105 0 0; connection 200 0 (-1) 9] |}.






(** * Properties *)

Lemma emit_all_app vs ws acc : emit_all (vs ++ ws) acc = emit_all ws (emit_all vs acc).
Proof. unfold emit_all. apply fold_left_app. Qed.

Lemma emit_all_spec vs acc :
  emit_all vs acc =
    (fst acc ++ map Z.of_nat (seq (length (fst acc)) (length vs)),
     snd acc ++ map opts.Build_LineData vs).
Proof.
  revert acc. induction vs as [|v vs IH]; intros [xs ys]; simpl.
  - now rewrite !app_nil_r.
  - change (fold_left _ vs ?a) with (emit_all vs a). rewrite IH. unfold emit. simpl.
    rewrite length_app, <- !app_assoc. simpl.
    now replace (length xs + 1)%nat with (S (length xs)) by lia.
Qed.

Lemma emit_all_nil vs :
  emit_all vs ([], []) = (counter (length vs), map opts.Build_LineData vs).
Proof. now rewrite emit_all_spec. Qed.

Lemma bleToWifi_history h acc :
  fold_left bleToWifi_entry h acc = emit_all (map wifi_delay (List.filter wifi_connected h)) acc.
Proof.
  revert acc. induction h as [|k h IH]; intros acc; simpl; [reflexivity|].
  rewrite IH. unfold bleToWifi_entry. fold (wifi_connected k).
  destruct (wifi_connected k); reflexivity.
Qed.

Lemma bleToIpfs_delays ds acc :
  fold_left bleToIpfs_entry ds acc = emit_all (map VInt64 ds) acc.
Proof. revert acc. induction ds as [|d ds IH]; intros acc; simpl; [reflexivity|]. now rewrite IH. Qed.

Lemma bleToWifi_loop_spec nodes :
  bleToWifi_loop nodes =
    emit_all (map wifi_delay (List.filter wifi_connected (history_entries nodes))) ([], []).
Proof.
  unfold bleToWifi_loop, history_entries. generalize (@nil Z, @nil opts.LineData).
  induction nodes as [|v nodes IH]; intros acc; simpl; [reflexivity|].
  rewrite IH, bleToWifi_history, List.filter_app, map_app, emit_all_app. reflexivity.
Qed.

Lemma bleToIpfs_loop_spec nodes :
  bleToIpfs_loop nodes = emit_all (map VInt64 (delay_entries nodes)) ([], []).
Proof.
  unfold bleToIpfs_loop, delay_entries. generalize (@nil Z, @nil opts.LineData).
  induction nodes as [|v nodes IH]; intros acc; simpl; [reflexivity|].
  rewrite IH, bleToIpfs_delays, map_app, emit_all_app. reflexivity.
Qed.

Lemma rssiSpeed_history h items :
  fold_left rssiSpeed_entry h items = items ++ map rssi_speed_point h.
Proof.
  revert items. induction h as [|k h IH]; intros items; simpl.
  - now rewrite app_nil_r.
  - rewrite IH. unfold rssiSpeed_entry. now rewrite <- app_assoc.
Qed.

Lemma rssiSpeed_loop_spec nodes :
  rssiSpeed_loop nodes = map rssi_speed_point (history_entries nodes).
Proof.
  unfold rssiSpeed_loop, history_entries.
  change (map rssi_speed_point (flat_map _ nodes))
    with ([] ++ map rssi_speed_point
                  (flat_map (fun v => DiscoveredNodeMatrix.ConnectionHistory (snd v)) nodes)).
  generalize (@nil opts.ParallelData).
  induction nodes as [|v nodes IH]; intros items; simpl.
  - now rewrite app_nil_r.
  - rewrite IH, rssiSpeed_history, map_app, app_assoc. reflexivity.
Qed.

(** Sums over a map do not depend on the order of the visit. *)
Lemma total_ranges {V : Type} (f : V -> nat) (m : gmap string V) kvs :
  ranges m kvs -> sum_list (map (fun kv => f (snd kv)) kvs) = total f m.
Proof. unfold ranges, total. intros H. now rewrite H. Qed.

Lemma length_flat_map_sum {A B : Type} (f : A -> list B) (l : list A) :
  length (flat_map f l) = sum_list (map (fun a => length (f a)) l).
Proof. induction l as [|a l IH]; simpl; [reflexivity|]. now rewrite length_app, IH. Qed.

Lemma filter_flat_map {A B : Type} (p : B -> bool) (f : A -> list B) (l : list A) :
  List.filter p (flat_map f l) = flat_map (fun a => List.filter p (f a)) l.
Proof. induction l as [|a l IH]; simpl; [reflexivity|]. now rewrite List.filter_app, IH. Qed.

Lemma wrap64_small z : in_int64 z -> wrap64 z = z.
Proof.
  unfold in_int64, wrap64. intros H.
  rewrite Z.mod_small by lia. lia.
Qed.

Lemma wifi_connected_iff k :
  wifi_connected k = true <-> ConnectionInfo.WifiConnectedAt k <> 0.
Proof.
  unfold wifi_connected. rewrite negb_true_iff, Z.eqb_neq. reflexivity.
Qed.

Lemma ranges_singleton {V : Type} (id : string) (v : V) kvs :
  ranges ({[id := v]} : gmap string V) kvs -> kvs = [(id, v)].
Proof.
  unfold ranges. rewrite map_to_list_singleton. intros H.
  symmetry in H. now apply Permutation_singleton_l in H.
Qed.

Lemma ranges_elem {V : Type} (m : gmap string V) kvs id v :
  ranges m kvs -> In (id, v) kvs <-> m !! id = Some v.
Proof.
  unfold ranges. intros H. rewrite <- list_elem_of_In, H. apply elem_of_map_to_list.
Qed.

(** The chart of each aggregator holds the slices of its loop. *)
Lemma bleToWifi_chart nodes :
  let c := part_000.bleToWifi nodes in
  let c' := main_go.bleToWifi nodes in
  charts.XAxis c = fst (bleToWifi_loop nodes) /\
  series "BLE to Wifi" c = Some (snd (bleToWifi_loop nodes)) /\
  charts.XAxis c' = charts.XAxis c /\ charts.MultiSeries c' = charts.MultiSeries c.
Proof.
  unfold part_000.bleToWifi, main_go.bleToWifi.
  destruct (bleToWifi_loop nodes) as [xs ys]. repeat split.
Qed.

Lemma bleToIpfs_chart nodes :
  let c := part_000.bleToIpfs nodes in
  let c' := main_go.bleToIpfs nodes in
  charts.XAxis c = fst (bleToIpfs_loop nodes) /\
  series "BLE to IPFS" c = Some (snd (bleToIpfs_loop nodes)) /\
  charts.XAxis c' = charts.XAxis c /\ charts.MultiSeries c' = charts.MultiSeries c.
Proof.
  unfold part_000.bleToIpfs, main_go.bleToIpfs.
  destruct (bleToIpfs_loop nodes) as [xs ys]. repeat split.
Qed.

Lemma downloadSpeed_chart contents :
  let c := part_000.downloadSpeed contents in
  let c' := main_go.downloadSpeed contents in
  charts.XAxis c = fst (downloadSpeed_loop contents) /\
  series "Download Speed" c = Some (snd (downloadSpeed_loop contents)) /\
  charts.XAxis c' = charts.XAxis c /\ charts.MultiSeries c' = charts.MultiSeries c.
Proof.
  unfold part_000.downloadSpeed, main_go.downloadSpeed.
  destruct (downloadSpeed_loop contents) as [xs ys]. repeat split.
Qed.

Lemma series_same {X D : Type} name (c c' : charts.Chart X D) :
  charts.MultiSeries c' = charts.MultiSeries c -> series name c' = series name c.
Proof. unfold series. now intros ->. Qed.

(** ** The BLE-to-Wifi series *)

(** C1. Under every order of the visit of [NodeMatrix], the "BLE to Wifi"
    series of both programs holds one point for each entry of the
    connection histories whose [WifiConnectedAt] is not zero, and none for
    the others: its values are the differences
    [WifiConnectedAt - BLEDiscoveredAt] of these entries, computed on
    [int64] and so equal to the integer difference whenever that is an
    [int64] (a negative one included); their number is the number of such
    entries in the map.  For one node with the history
    [{100, 105}, {200, 0}] the series is the single point [5]. *)
Theorem bleToWifi_points :
  forall (data : matrix) (nodes : list (string * DiscoveredNodeMatrix.t)),
    ranges (NodeMatrix data) nodes ->
    let connected := List.filter wifi_connected (history_entries nodes) in
    series "BLE to Wifi" (part_000.bleToWifi nodes)
      = Some (map (fun k => opts.Build_LineData (wifi_delay k)) connected)
    /\ series "BLE to Wifi" (main_go.bleToWifi nodes)
      = Some (map (fun k => opts.Build_LineData (wifi_delay k)) connected)
    /\ (forall k, In k connected <->
          ConnectionInfo.WifiConnectedAt k <> 0 /\
          exists id v, NodeMatrix data !! id = Some v /\
                       In k (DiscoveredNodeMatrix.ConnectionHistory v))
    /\ length connected
       = total (fun v => length (List.filter wifi_connected
                                   (DiscoveredNodeMatrix.ConnectionHistory v)))
           (NodeMatrix data)
    /\ (forall k,
          in_int64 (ConnectionInfo.WifiConnectedAt k - ConnectionInfo.BLEDiscoveredAt k) ->
          wifi_delay k
          = VInt64 (ConnectionInfo.WifiConnectedAt k - ConnectionInfo.BLEDiscoveredAt k))
    /\ (forall id v k1 k2,
          NodeMatrix data = {[id := v]} ->
          DiscoveredNodeMatrix.ConnectionHistory v = [k1; k2] ->
          ConnectionInfo.BLEDiscoveredAt k1 = 100 -> ConnectionInfo.WifiConnectedAt k1 = 105 ->
          ConnectionInfo.BLEDiscoveredAt k2 = 200 -> ConnectionInfo.WifiConnectedAt k2 = 0 ->
          series "BLE to Wifi" (part_000.bleToWifi nodes) = Some [opts.Build_LineData (VInt64 5)]
          /\ series "BLE to Wifi" (main_go.bleToWifi nodes)
             = Some [opts.Build_LineData (VInt64 5)]).
Proof.
  intros data nodes Hr connected.
  destruct (bleToWifi_chart nodes) as (_ & Hs & _ & Hm). cbv zeta in Hs, Hm.
  assert (Hser : series "BLE to Wifi" (part_000.bleToWifi nodes)
                 = Some (map (fun k => opts.Build_LineData (wifi_delay k)) connected)).
  { rewrite Hs, bleToWifi_loop_spec, emit_all_nil. simpl. now rewrite map_map. }
  assert (Hser' : series "BLE to Wifi" (main_go.bleToWifi nodes)
                  = Some (map (fun k => opts.Build_LineData (wifi_delay k)) connected)).
  { now rewrite (series_same _ _ _ Hm). }
  split; [exact Hser|]. split; [exact Hser'|]. split; [|split; [|split]].
  - intros k. unfold connected, history_entries.
    rewrite filter_In, in_flat_map, wifi_connected_iff. split.
    + intros [[[id v] [Hin Hk]] Hw]. split; [exact Hw|]. exists id, v.
      split; [|exact Hk]. now apply (ranges_elem _ _ _ _ Hr).
    + intros [Hw (id & v & Hl & Hk)]. split; [|exact Hw]. exists (id, v).
      split; [|exact Hk]. now apply (ranges_elem _ _ _ _ Hr).
  - unfold connected, history_entries.
    rewrite filter_flat_map, length_flat_map_sum.
    exact (total_ranges
             (fun v => length (List.filter wifi_connected
                                 (DiscoveredNodeMatrix.ConnectionHistory v))) _ _ Hr).
  - intros k Hk. unfold wifi_delay, sub64. now rewrite wrap64_small.
  - intros id v k1 k2 Hdata Hh Hb1 Hw1 Hb2 Hw2.
    assert (Hc : map (fun k => opts.Build_LineData (wifi_delay k)) connected
                 = [opts.Build_LineData (VInt64 5)]).
    { unfold ranges in Hr. rewrite Hdata in Hr. apply ranges_singleton in Hr. subst nodes.
      unfold connected, history_entries. simpl. rewrite Hh, app_nil_r.
      unfold List.filter, wifi_connected, wifi_delay. rewrite Hw1, Hw2. simpl.
      now rewrite Hb1, Hw1. }
    rewrite Hser, Hser', Hc. split; reflexivity.
Qed.

Lemma bleToWifi_points_witness :
  ranges (NodeMatrix scenario_matrix) scenario_nodes /\
  series "BLE to Wifi" (part_000.bleToWifi scenario_nodes) = Some [opts.Build_LineData (VInt64 5)].
Proof.
  assert (Hr : ranges (NodeMatrix scenario_matrix) scenario_nodes)
    by (unfold ranges; vm_compute; reflexivity).
  split; [exact Hr|].
  destruct (bleToWifi_points scenario_matrix scenario_nodes Hr) as (_ & _ & _ & _ & _ & H).
  exact (proj1 (H "QmNode"%string scenario_node _ _ eq_refl eq_refl eq_refl eq_refl eq_refl eq_refl)).
Defined.

(** ** The BLE-to-IPFS series *)

(** C4. Under every order of the visit of [NodeMatrix], the "BLE to IPFS"
    series of both programs holds one point for each value of the
    [DiscoveryDelays] of the nodes, the value itself, none left out: their
    number is the sum of the lengths of the [DiscoveryDelays] over the
    map. *)
Theorem bleToIpfs_points :
  forall (data : matrix) (nodes : list (string * DiscoveredNodeMatrix.t)),
    ranges (NodeMatrix data) nodes ->
    series "BLE to IPFS" (part_000.bleToIpfs nodes)
      = Some (map (fun d => opts.Build_LineData (VInt64 d)) (delay_entries nodes))
    /\ series "BLE to IPFS" (main_go.bleToIpfs nodes)
      = Some (map (fun d => opts.Build_LineData (VInt64 d)) (delay_entries nodes))
    /\ length (delay_entries nodes)
       = total (fun v => length (DiscoveredNodeMatrix.DiscoveryDelays v)) (NodeMatrix data)
    /\ (forall d, In d (delay_entries nodes) <->
          exists id v, NodeMatrix data !! id = Some v /\
                       In d (DiscoveredNodeMatrix.DiscoveryDelays v)).
Proof.
  intros data nodes Hr.
  destruct (bleToIpfs_chart nodes) as (_ & Hs & _ & Hm). cbv zeta in Hs, Hm.
  rewrite (series_same _ _ _ Hm), Hs, bleToIpfs_loop_spec, emit_all_nil. simpl.
  rewrite map_map. repeat split.
  - unfold delay_entries. rewrite length_flat_map_sum.
    exact (total_ranges (fun v => length (DiscoveredNodeMatrix.DiscoveryDelays v)) _ _ Hr).
  - unfold delay_entries. rewrite in_flat_map. intros [[id v] [Hin Hd]].
    exists id, v. split; [|exact Hd]. now apply (ranges_elem _ _ _ _ Hr).
  - intros (id & v & Hl & Hd). unfold delay_entries. rewrite in_flat_map.
    exists (id, v). split; [|exact Hd]. now apply (ranges_elem _ _ _ _ Hr).
Qed.

Lemma bleToIpfs_points_witness :
  ranges (NodeMatrix scenario_matrix) scenario_nodes /\
  series "BLE to IPFS" (part_000.bleToIpfs scenario_nodes)
  = Some [opts.Build_LineData (VInt64 7); opts.Build_LineData (VInt64 9)].
Proof.
  assert (Hr : ranges (NodeMatrix scenario_matrix) scenario_nodes)
    by (unfold ranges; vm_compute; reflexivity).
  split; [exact Hr|].
  exact (proj1 (bleToIpfs_points scenario_matrix scenario_nodes Hr)).
Defined.

(** ** The RSSI/Speed series *)

Lemma rssiSpeed_chart nodes :
  series "RSSI Speed" (part_000.rssiSpeed nodes) = Some (rssiSpeed_loop nodes) /\
  series "RSSI Speed" (main_go.rssiSpeed nodes) = Some (rssiSpeed_loop nodes).
Proof. split; reflexivity. Qed.

(** C5. Under every order of the visit of [NodeMatrix], the "RSSI Speed"
    series of both programs holds one point of two coordinates for each
    entry of the connection histories of the nodes, none left out, and the
    coordinates are the [RSSI] and the [Speed] of the entry: their number
    is the sum of the lengths of the histories over the map. *)
Theorem rssiSpeed_points :
  forall (data : matrix) (nodes : list (string * DiscoveredNodeMatrix.t)),
    ranges (NodeMatrix data) nodes ->
    let point k :=
      opts.Build_ParallelData [VInt (ConnectionInfo.RSSI k); VInt (ConnectionInfo.Speed k)] in
    series "RSSI Speed" (part_000.rssiSpeed nodes) = Some (map point (history_entries nodes))
    /\ series "RSSI Speed" (main_go.rssiSpeed nodes) = Some (map point (history_entries nodes))
    /\ length (history_entries nodes)
       = total (fun v => length (DiscoveredNodeMatrix.ConnectionHistory v)) (NodeMatrix data)
    /\ (forall k, In k (history_entries nodes) <->
          exists id v, NodeMatrix data !! id = Some v /\
                       In k (DiscoveredNodeMatrix.ConnectionHistory v)).
Proof.
  intros data nodes Hr point.
  destruct (rssiSpeed_chart nodes) as [-> ->]. rewrite rssiSpeed_loop_spec.
  repeat split.
  - unfold history_entries. rewrite length_flat_map_sum.
    exact (total_ranges (fun v => length (DiscoveredNodeMatrix.ConnectionHistory v)) _ _ Hr).
  - unfold history_entries. rewrite in_flat_map. intros [[id v] [Hin Hk]].
    exists id, v. split; [|exact Hk]. now apply (ranges_elem _ _ _ _ Hr).
  - intros (id & v & Hl & Hk). unfold history_entries. rewrite in_flat_map.
    exists (id, v). split; [|exact Hk]. now apply (ranges_elem _ _ _ _ Hr).
Qed.

Lemma rssiSpeed_points_witness :
  ranges (NodeMatrix scenario_matrix) scenario_nodes /\
  series "RSSI Speed" (part_000.rssiSpeed scenario_nodes)
  = Some [opts.Build_ParallelData [VInt (-60); VInt 54];
          opts.Build_ParallelData [VInt (-71); VInt 0]].
Proof.
  assert (Hr : ranges (NodeMatrix scenario_matrix) scenario_nodes)
    by (unfold ranges; vm_compute; reflexivity).
  split; [exact Hr|].
  exact (proj1 (rssiSpeed_points scenario_matrix scenario_nodes Hr)).
Defined.

(** ** The x-axes of the line charts *)

Lemma downloadSpeed_loop_spec contents :
  downloadSpeed_loop contents
  = emit_all (map (fun kv => speed_value (ContentMatrix.AvgSpeed (snd kv))) contents) ([], []).
Proof.
  unfold downloadSpeed_loop. generalize (@nil Z, @nil opts.LineData).
  induction contents as [|v contents IH]; intros acc; simpl; [reflexivity|].
  rewrite IH. f_equal. unfold downloadSpeed_entry, emit, speed_value.
  now destruct (ParseFloat _).
Qed.

(** C10. In the three line charts of both programs the x-axis has as many
    values as the series has points, and it is [0, 1, ..., n-1]. *)
Theorem line_chart_xAxis :
  forall (nodes : list (string * DiscoveredNodeMatrix.t))
         (contents : list (string * ContentMatrix.t)),
    let counts (name : string) (c : charts.Line) :=
      exists ys, series name c = Some ys /\
                 length (charts.XAxis c) = length ys /\
                 charts.XAxis c = map Z.of_nat (seq 0 (length ys)) in
    counts "BLE to Wifi" (part_000.bleToWifi nodes)
    /\ counts "BLE to IPFS" (part_000.bleToIpfs nodes)
    /\ counts "Download Speed" (part_000.downloadSpeed contents)
    /\ counts "BLE to Wifi" (main_go.bleToWifi nodes)
    /\ counts "BLE to IPFS" (main_go.bleToIpfs nodes)
    /\ counts "Download Speed" (main_go.downloadSpeed contents).
Proof.
  intros nodes contents counts.
  assert (Hemit : forall vs,
            length (fst (emit_all vs ([], []))) = length (snd (emit_all vs ([], []))) /\
            fst (emit_all vs ([], []))
            = map Z.of_nat (seq 0 (length (snd (emit_all vs ([], [])))))).
  { intros vs. rewrite emit_all_nil. unfold counter. simpl.
    rewrite !length_map, length_seq. split; reflexivity. }
  destruct (bleToWifi_chart nodes) as (Hx1 & Hs1 & Hx1' & Hm1).
  destruct (bleToIpfs_chart nodes) as (Hx2 & Hs2 & Hx2' & Hm2).
  destruct (downloadSpeed_chart contents) as (Hx3 & Hs3 & Hx3' & Hm3).
  cbv zeta in *.
  assert (H1 : counts "BLE to Wifi"%string (part_000.bleToWifi nodes)).
  { eexists. split; [exact Hs1|]. rewrite Hx1, bleToWifi_loop_spec. apply Hemit. }
  assert (H2 : counts "BLE to IPFS"%string (part_000.bleToIpfs nodes)).
  { eexists. split; [exact Hs2|]. rewrite Hx2, bleToIpfs_loop_spec. apply Hemit. }
  assert (H3 : counts "Download Speed"%string (part_000.downloadSpeed contents)).
  { eexists. split; [exact Hs3|]. rewrite Hx3, downloadSpeed_loop_spec. apply Hemit. }
  repeat split; try assumption; unfold counts.
  - rewrite (series_same _ _ _ Hm1), Hx1'. exact H1.
  - rewrite (series_same _ _ _ Hm2), Hx2'. exact H2.
  - rewrite (series_same _ _ _ Hm3), Hx3'. exact H3.
Qed.

(** ** The order of the visit *)

Lemma flat_map_Permutation {A B : Type} (f : A -> list B) (l l' : list A) :
  l ≡ₚ l' -> flat_map f l ≡ₚ flat_map f l'.
Proof.
  induction 1 as [|x l l' _ IH|x y l|l l' l'' _ IH1 _ IH2]; simpl.
  - reflexivity.
  - now rewrite IH.
  - rewrite !app_assoc. apply Permutation_app_tail, Permutation_app_comm.
  - now transitivity (flat_map f l').
Qed.

Lemma list_filter_Permutation {A : Type} (p : A -> bool) (l l' : list A) :
  l ≡ₚ l' -> List.filter p l ≡ₚ List.filter p l'.
Proof.
  induction 1 as [|x l l' _ IH|x y l|l l' l'' _ IH1 _ IH2]; simpl.
  - reflexivity.
  - destruct (p x); now rewrite IH.
  - destruct (p x), (p y); try reflexivity. apply perm_swap.
  - now transitivity (List.filter p l').
Qed.

(** C9. Two visits of the same [NodeMatrix], in whatever orders, give
    "BLE to Wifi" series that are permutations of each other, and so for
    the "BLE to IPFS" series, while the x-axes are the same: only the
    place of a value along the axis depends on the order (for the map of
    two nodes the two orders give different sequences), and one order
    gives one chart. *)
Theorem series_under_reordering :
  forall (data : matrix) (nodes1 nodes2 : list (string * DiscoveredNodeMatrix.t)),
    ranges (NodeMatrix data) nodes1 ->
    ranges (NodeMatrix data) nodes2 ->
    (exists ys1 ys2,
        series "BLE to Wifi" (part_000.bleToWifi nodes1) = Some ys1 /\
        series "BLE to Wifi" (part_000.bleToWifi nodes2) = Some ys2 /\
        map yvalue ys1 ≡ₚ map yvalue ys2 /\
        charts.XAxis (part_000.bleToWifi nodes1) = charts.XAxis (part_000.bleToWifi nodes2))
    /\ (exists ys1 ys2,
        series "BLE to IPFS" (part_000.bleToIpfs nodes1) = Some ys1 /\
        series "BLE to IPFS" (part_000.bleToIpfs nodes2) = Some ys2 /\
        map yvalue ys1 ≡ₚ map yvalue ys2 /\
        charts.XAxis (part_000.bleToIpfs nodes1) = charts.XAxis (part_000.bleToIpfs nodes2))
    /\ (nodes1 = nodes2 ->
        part_000.bleToWifi nodes1 = part_000.bleToWifi nodes2 /\
        part_000.bleToIpfs nodes1 = part_000.bleToIpfs nodes2)
    /\ (ranges (NodeMatrix two_nodes_matrix) two_nodes_order1 /\
        ranges (NodeMatrix two_nodes_matrix) two_nodes_order2 /\
        series "BLE to Wifi" (part_000.bleToWifi two_nodes_order1)
        <> series "BLE to Wifi" (part_000.bleToWifi two_nodes_order2) /\
        series "BLE to IPFS" (part_000.bleToIpfs two_nodes_order1)
        <> series "BLE to IPFS" (part_000.bleToIpfs two_nodes_order2)).
Proof.
  intros data nodes1 nodes2 Hr1 Hr2.
  assert (Hp : nodes1 ≡ₚ nodes2).
  { unfold ranges in *. now rewrite Hr1, Hr2. }
  split; [|split; [|split]].
  - destruct (bleToWifi_chart nodes1) as (Hx1 & Hs1 & _).
    destruct (bleToWifi_chart nodes2) as (Hx2 & Hs2 & _). cbv zeta in *.
    do 2 eexists. split; [exact Hs1|]. split; [exact Hs2|].
    rewrite Hx1, Hx2, !bleToWifi_loop_spec, !emit_all_nil. simpl.
    assert (Hq : List.filter wifi_connected (history_entries nodes1)
                 ≡ₚ List.filter wifi_connected (history_entries nodes2))
      by (apply list_filter_Permutation, flat_map_Permutation, Hp).
    split.
    + now rewrite Hq.
    + unfold counter. now rewrite !length_map, (Permutation_length Hq).
  - destruct (bleToIpfs_chart nodes1) as (Hx1 & Hs1 & _).
    destruct (bleToIpfs_chart nodes2) as (Hx2 & Hs2 & _). cbv zeta in *.
    do 2 eexists. split; [exact Hs1|]. split; [exact Hs2|].
    rewrite Hx1, Hx2, !bleToIpfs_loop_spec, !emit_all_nil. simpl.
    assert (Hq : delay_entries nodes1 ≡ₚ delay_entries nodes2)
      by (apply flat_map_Permutation, Hp).
    split.
    + now rewrite Hq.
    + unfold counter. now rewrite !length_map, (Permutation_length Hq).
  - intros ->. split; reflexivity.
  - split; [unfold ranges; vm_compute; first [reflexivity | apply perm_swap]|].
    split; [unfold ranges; vm_compute; first [reflexivity | apply perm_swap]|].
    split; vm_compute; discriminate.
Qed.

Lemma series_under_reordering_witness :
  ranges (NodeMatrix two_nodes_matrix) two_nodes_order1 /\
  ranges (NodeMatrix two_nodes_matrix) two_nodes_order2 /\
  exists ys1 ys2,
    series "BLE to Wifi" (part_000.bleToWifi two_nodes_order1) = Some ys1 /\
    series "BLE to Wifi" (part_000.bleToWifi two_nodes_order2) = Some ys2 /\
    map yvalue ys1 ≡ₚ map yvalue ys2 /\
    charts.XAxis (part_000.bleToWifi two_nodes_order1)
    = charts.XAxis (part_000.bleToWifi two_nodes_order2).
Proof.
  assert (Hr1 : ranges (NodeMatrix two_nodes_matrix) two_nodes_order1)
    by (unfold ranges; vm_compute; first [reflexivity | apply perm_swap]).
  assert (Hr2 : ranges (NodeMatrix two_nodes_matrix) two_nodes_order2)
    by (unfold ranges; vm_compute; first [reflexivity | apply perm_swap]).
  split; [exact Hr1|]. split; [exact Hr2|].
  exact (proj1 (series_under_reordering two_nodes_matrix _ _ Hr1 Hr2)).
Defined.

(** ** The battery chart *)

Lemma battery_fold ms acc :
  fold_left battery_entry ms acc
  = (fst acc ++ map bar_item (List.filter (transfers "10") ms),
     snd acc ++ map bar_item (List.filter (transfers "100") ms)).
Proof.
  revert acc. induction ms as [|v ms IH]; intros [ten hundred]; simpl.
  - now rewrite !app_nil_r.
  - rewrite IH. unfold battery_entry, transfers. simpl.
    destruct (String.eqb (Measurement.DataTransfer v) "10") eqn:E10.
    + apply String.eqb_eq in E10. rewrite E10. simpl. now rewrite <- app_assoc.
    + destruct (String.eqb (Measurement.DataTransfer v) "100") eqn:E100; simpl;
        [now rewrite <- app_assoc | reflexivity].
Qed.

Lemma battery_loop_spec ms :
  battery_loop ms
  = (map bar_item (List.filter (transfers "10") ms),
     map bar_item (List.filter (transfers "100") ms)).
Proof. unfold battery_loop. now rewrite battery_fold. Qed.

Lemma battery_chart data :
  part_000.transferIntervalToBatteryPercentage data
  = charts.SetSeriesOptions [charts.WithLabelOpts true "insideTop"]
      (charts.AddSeries "100Mb"
         (map bar_item (List.filter (transfers "100") (BatteryMeasurement data)))
         (charts.AddSeries "10Mb"
            (map bar_item (List.filter (transfers "10") (BatteryMeasurement data)))
            (charts.SetXAxis ["40s"; "120s"]%string
               (charts.SetGlobalOptions
                  [charts.WithTitleOpts "Battery Consumption after 3 hours of transfer";
                   charts.WithTooltipOpts true; charts.WithLegendOpts true "80%"]
                  charts.NewBar)))).
Proof.
  unfold part_000.transferIntervalToBatteryPercentage.
  now rewrite battery_loop_spec.
Qed.

(** C3. For every input the battery chart is built (the aggregator has
    no failing path) with exactly the two series "10Mb" and "100Mb".  A
    measurement whose [DataTransfer] is ["10"] adds its consumption to the
    first and nothing to the second, one whose [DataTransfer] is ["100"]
    adds it to the second and nothing to the first, any other adds
    nothing to either; the points of a series stand in the order of the
    input. *)
Theorem battery_buckets :
  forall data : BatteryMeasurements,
    let chart ms := part_000.transferIntervalToBatteryPercentage {| BatteryMeasurement := ms |} in
    let ten ms := map bar_item (List.filter (transfers "10") ms) in
    let hundred ms := map bar_item (List.filter (transfers "100") ms) in
    (forall ms, charts.MultiSeries (chart ms) = [("10Mb"%string, ten ms); ("100Mb"%string, hundred ms)])
    /\ part_000.transferIntervalToBatteryPercentage data = chart (BatteryMeasurement data)
    /\ (forall pre v post,
          BatteryMeasurement data = pre ++ v :: post ->
          let ms := BatteryMeasurement data in
          (Measurement.DataTransfer v = "10"%string ->
             ten ms = ten pre ++ bar_item v :: ten post /\
             hundred ms = hundred pre ++ hundred post)
          /\ (Measurement.DataTransfer v = "100"%string ->
             ten ms = ten pre ++ ten post /\
             hundred ms = hundred pre ++ bar_item v :: hundred post)
          /\ (Measurement.DataTransfer v <> "10"%string ->
              Measurement.DataTransfer v <> "100"%string ->
             ten ms = ten pre ++ ten post /\
             hundred ms = hundred pre ++ hundred post)).
Proof.
  intros data chart ten hundred. split; [|split].
  - intros ms. unfold chart. now rewrite battery_chart.
  - unfold chart. now destruct data.
  - intros pre v post Hms ms. subst ms. rewrite Hms. unfold ten, hundred.
    assert (Hsplit : forall size,
              map bar_item (List.filter (transfers size) (pre ++ v :: post))
              = map bar_item (List.filter (transfers size) pre)
                  ++ (if String.eqb (Measurement.DataTransfer v) size then [bar_item v] else [])
                  ++ map bar_item (List.filter (transfers size) post)).
    { intros size. rewrite List.filter_app, map_app. simpl. unfold transfers at 2.
      now destruct (String.eqb (Measurement.DataTransfer v) size). }
    rewrite !Hsplit. split; [|split].
    + intros ->. split; reflexivity.
    + intros ->. split; reflexivity.
    + intros H10 H100.
      apply String.eqb_neq in H10, H100. rewrite H10, H100. split; reflexivity.
Qed.

Lemma battery_buckets_witness :
  BatteryMeasurement sample_battery
  = [measurement "10" "40" "1.5"] ++ measurement "100" "40" "4"
      :: [measurement "50" "40" "2"; measurement "10" "120" "1"]
  /\ Measurement.DataTransfer (measurement "100" "40" "4") = "100"%string
  /\ map bar_item (List.filter (transfers "100") (BatteryMeasurement sample_battery))
     = [] ++ bar_item (measurement "100" "40" "4") :: []
  /\ charts.MultiSeries (part_000.transferIntervalToBatteryPercentage sample_battery)
     = [("10Mb"%string, [bar_item (measurement "10" "40" "1.5");
                         bar_item (measurement "10" "120" "1")]);
        ("100Mb"%string, [bar_item (measurement "100" "40" "4")])].
Proof.
  destruct (battery_buckets sample_battery) as (Hs & _ & Hb).
  split; [reflexivity|]. split; [reflexivity|]. split.
  - exact (proj2 (proj1 (proj2 (Hb [measurement "10" "40" "1.5"] (measurement "100" "40" "4")
                                  [measurement "50" "40" "2"; measurement "10" "120" "1"]
                                  eq_refl)) eq_refl)).
  - exact (Hs (BatteryMeasurement sample_battery)).
Defined.

(** C8. The x-axis of the battery chart is always ["40s", "120s"], and
    the chart is the same for two inputs that differ only in their
    [TransferInterval]s. *)
Theorem battery_ignores_interval :
  forall data data' : BatteryMeasurements,
    Forall2 same_but_interval (BatteryMeasurement data) (BatteryMeasurement data') ->
    charts.XAxis (part_000.transferIntervalToBatteryPercentage data) = ["40s"; "120s"]%string
    /\ part_000.transferIntervalToBatteryPercentage data
       = part_000.transferIntervalToBatteryPercentage data'.
Proof.
  intros data data' H. rewrite !battery_chart. split; [reflexivity|].
  assert (Hsame : forall size,
            map bar_item (List.filter (transfers size) (BatteryMeasurement data))
            = map bar_item (List.filter (transfers size) (BatteryMeasurement data'))).
  { intros size. induction H as [|a b l l' [Hd Hc] _ IH]; simpl; [reflexivity|].
    replace (transfers size a) with (transfers size b)
      by (unfold transfers; now rewrite Hd).
    destruct (transfers size b); simpl; [|exact IH].
    rewrite IH. f_equal. unfold bar_item. now rewrite Hc. }
  now rewrite !Hsame.
Qed.

Lemma battery_ignores_interval_witness :
  Forall2 same_but_interval (BatteryMeasurement sample_battery)
    (BatteryMeasurement sample_battery')
  /\ charts.XAxis (part_000.transferIntervalToBatteryPercentage sample_battery)
     = ["40s"; "120s"]%string
  /\ part_000.transferIntervalToBatteryPercentage sample_battery
     = part_000.transferIntervalToBatteryPercentage sample_battery'.
Proof.
  assert (H : Forall2 same_but_interval (BatteryMeasurement sample_battery)
                (BatteryMeasurement sample_battery'))
    by (simpl; repeat constructor).
  split; [exact H|]. exact (battery_ignores_interval sample_battery sample_battery' H).
Defined.

(** ** The load step and the end of the run *)

Lemma length_append (p s : string) :
  String.length (p ++ s) = (String.length p + String.length s)%nat.
Proof. induction p as [|c p IH]; simpl; [reflexivity | now rewrite IH]. Qed.

Lemma append_inv_tail (p q s : string) : (p ++ s = q ++ s)%string -> p = q.
Proof.
  intros H.
  assert (Hl : String.length p = String.length q).
  { apply (f_equal String.length) in H. rewrite !length_append in H. lia. }
  revert q H Hl. induction p as [|c p IH]; intros [|d q] H Hl; simpl in *;
    try discriminate; [reflexivity|].
  injection H as -> H. f_equal. apply IH; [exact H | lia].
Qed.

Lemma htmlPath_inj p q : htmlPath p = htmlPath q -> p = q.
Proof.
  unfold htmlPath. intros H. injection H as H.
  change (p ++ ".html" = q ++ ".html")%string in H.
  now apply append_inv_tail in H.
Qed.

Lemma htmlPath_logPath p q : htmlPath p <> logPath q.
Proof. unfold htmlPath, logPath. intros H. discriminate H. Qed.

Lemma pages_frame_refl ps w : pages_frame ps w w.
Proof.
  unfold pages_frame. repeat split; try reflexivity.
  exists []. rewrite app_nil_r. repeat split; intros q [].
Qed.

Lemma pages_frame_record ps w w' ev :
  pages_frame ps w w' ->
  (forall q, ev = EvCreate q \/ ev = EvRender q -> exists p, In p ps /\ q = htmlPath p) ->
  pages_frame ps w (record ev w').
Proof.
  intros (Hf & Hr & Hw & evs & Ht & Hc & Hd) Hev. unfold pages_frame. simpl.
  repeat split; try assumption.
  exists (evs ++ [ev]). rewrite Ht, app_assoc. split; [reflexivity|].
  split; intros q Hin; apply in_app_or in Hin as [Hin|[Hin|[]]]; auto.
Qed.

Lemma pages_frame_write ps w w' p contents :
  pages_frame ps w w' -> In p ps -> pages_frame ps w (write (htmlPath p) contents w').
Proof.
  intros (Hf & Hr & Hw & Hev) Hp. unfold pages_frame. simpl.
  repeat split; try assumption.
  intros q Hq. rewrite lookup_insert_ne; [now apply Hf|].
  intros Heq. now apply (Hq p).
Qed.

Lemma pages_frame_trans ps w1 w2 w3 :
  pages_frame ps w1 w2 -> pages_frame ps w2 w3 -> pages_frame ps w1 w3.
Proof.
  intros (Hf & Hr & Hw & evs & Ht & Hc & Hd) (Hf' & Hr' & Hw' & evs' & Ht' & Hc' & Hd').
  unfold pages_frame. repeat split; try congruence.
  - intros q Hq. rewrite Hf', Hf; auto.
  - exists (evs ++ evs'). rewrite Ht', Ht, app_assoc. split; [reflexivity|].
    split; intros q Hin; apply in_app_or in Hin as [Hin|Hin]; auto.
Qed.

Lemma pages_frame_mono ps ps' w w' :
  (forall p, In p ps -> In p ps') -> pages_frame ps w w' -> pages_frame ps' w w'.
Proof.
  intros Hsub (Hf & Hr & Hw & evs & Ht & Hc & Hd). unfold pages_frame.
  repeat split; try assumption.
  - intros q Hq. apply Hf. intros p Hp. apply Hq, Hsub, Hp.
  - exists evs. split; [exact Ht|].
    split; intros q Hin; [destruct (Hc q Hin) as (p & Hp & ->)
                         | destruct (Hd q Hin) as (p & Hp & ->)]; exists p; auto.
Qed.

Ltac frame_page :=
  repeat first
    [ apply pages_frame_refl
    | apply pages_frame_write; [| left; reflexivity]
    | apply pages_frame_record;
      [| intros q [Hq|Hq]; try discriminate Hq; injection Hq as <-;
         eexists; (split; [left; reflexivity | reflexivity]) ] ].

Lemma renderMatrixPage_frame Um Render rng p w :
  pages_frame [p] w (fst (part_000.renderMatrixPage Um Render rng p w)).
Proof.
  unfold part_000.renderMatrixPage, bind, ReadFile, Unmarshal, aggregate, Create, RenderTo,
    Fatal.
  simpl. repeat case_match; simplify_eq; simpl in *; simplify_eq; frame_page.
Qed.

Lemma renderBatteryMeasurementPage_frame Ub Render p w :
  pages_frame [p] w (fst (part_000.renderBatteryMeasurementPage Ub Render p w)).
Proof.
  unfold part_000.renderBatteryMeasurementPage, bind, ReadFile, Unmarshal, aggregate, Create,
    RenderTo, Fatal.
  simpl. repeat case_match; simplify_eq; simpl in *; simplify_eq; frame_page.
Qed.

Lemma renderPage_frame Um Render rng p w :
  pages_frame [p] w (fst (main_go.renderPage Um Render rng p w)).
Proof.
  unfold main_go.renderPage, bind, ReadFile, Unmarshal, aggregate, Create, RenderTo, Fatal.
  simpl. repeat case_match; simplify_eq; simpl in *; simplify_eq; frame_page.
Qed.

Lemma load_failure_frame name err w : pages_frame [] w (load_failure name err w).
Proof. destruct err; simpl; frame_page. Qed.

Lemma load_error_frame {A : Type} (decode : string -> option A) ps w w' name :
  pages_frame ps w w' -> load_error decode w' name = load_error decode w name.
Proof.
  intros (Hf & Hr & _). unfold load_error. rewrite Hr, Hf; [reflexivity|].
  intros p _ H. symmetry in H. now apply htmlPath_logPath in H.
Qed.

Lemma cannot_read_load_error {A : Type} (decode : string -> option A) w name :
  cannot_read w (logPath name) -> load_error decode w name = Some (IOError (logPath name)).
Proof.
  unfold load_error. intros [-> | H]; [reflexivity|].
  destruct (files w !! logPath name); [|reflexivity].
  now destruct (decide (logPath name ∈ unreadable w)).
Qed.


Lemma renderMatrixPage_renderer Um Render rng :
  page_renderer Um (part_000.renderMatrixPage Um Render rng).
Proof.
  split; [apply renderMatrixPage_frame|].
  intros p w err. unfold load_error, part_000.renderMatrixPage, bind, ReadFile, Unmarshal, Fatal.
  simpl. repeat case_match; intros; simplify_eq; reflexivity.
Qed.

Lemma renderBatteryMeasurementPage_renderer Ub Render :
  page_renderer Ub (part_000.renderBatteryMeasurementPage Ub Render).
Proof.
  split; [apply renderBatteryMeasurementPage_frame|].
  intros p w err.
  unfold load_error, part_000.renderBatteryMeasurementPage, bind, ReadFile, Unmarshal, Fatal.
  simpl. repeat case_match; intros; simplify_eq; reflexivity.
Qed.

Lemma renderPage_renderer Um Render rng :
  page_renderer Um (main_go.renderPage Um Render rng).
Proof.
  split; [apply renderPage_frame|].
  intros p w err. unfold load_error, main_go.renderPage, bind, ReadFile, Unmarshal, Fatal.
  simpl. repeat case_match; intros; simplify_eq; reflexivity.
Qed.

Lemma keeps_refl name w : keeps name w w.
Proof. exists []. split; [intros []|apply pages_frame_refl]. Qed.

Lemma keeps_trans name w1 w2 w3 : keeps name w1 w2 -> keeps name w2 w3 -> keeps name w1 w3.
Proof.
  intros (ps & Hn & Hf) (ps' & Hn' & Hf'). exists (ps ++ ps'). split.
  - rewrite in_app_iff. tauto.
  - apply pages_frame_trans with w2.
    + apply (pages_frame_mono ps); [intros p Hp; apply in_or_app; now left | exact Hf].
    + apply (pages_frame_mono ps'); [intros p Hp; apply in_or_app; now right | exact Hf'].
Qed.

Lemma keeps_untouched name w w' : keeps name w w' -> untouched (htmlPath name) w w'.
Proof.
  intros (ps & Hn & Hf & _ & _ & evs & Ht & Hc & Hd). split.
  - apply Hf. intros p Hp Heq. apply htmlPath_inj in Heq. now subst.
  - exists evs. split; [exact Ht|].
    split; intros Hin; [destruct (Hc _ Hin) as (p & Hp & Heq)
                       | destruct (Hd _ Hin) as (p & Hp & Heq)];
      apply htmlPath_inj in Heq; now subst.
Qed.

Lemma keeps_load_error {A : Type} (decode : string -> option A) name q w w' :
  keeps name w w' -> load_error decode w' q = load_error decode w q.
Proof. intros (ps & _ & Hf). exact (load_error_frame decode ps w w' q Hf). Qed.

Lemma keeps_Fatal name w w' msg err : keeps name w w' -> keeps name w (record (EvFatal msg err) w').
Proof.
  intros (ps & Hn & Hf). exists ps. split; [exact Hn|].
  apply pages_frame_record; [exact Hf|]. intros q [H|H]; discriminate H.
Qed.

(** A loop over pages, none of which is [name], keeps the output of
    [name]. *)
Lemma renderAll_keeps {A : Type} (decode : string -> option A) render name names w :
  page_renderer decode render -> ~ In name names ->
  keeps name w (fst (renderAll render names w)).
Proof.
  intros [Hframe _]. revert w. induction names as [|p names IH]; intros w Hn; simpl.
  - apply keeps_refl.
  - assert (Hp : keeps name w (fst (render p w))).
    { exists [p]. split; [|apply Hframe]. intros [->|[]]. apply Hn. now left. }
    unfold bind. destruct (render p w) as [w1 [msg err|[e|]]]; simpl in *.
    + exact Hp.
    + now apply keeps_Fatal.
    + apply keeps_trans with w1; [exact Hp|]. apply IH. intros H. apply Hn. now right.
Qed.

(** A loop over pages ends the run, at the latest, at the first page whose
    load step has an error, and has not touched the output of that page. *)
Lemma renderAll_stops {A : Type} (decode : string -> option A) render name names w err :
  page_renderer decode render -> In name names ->
  load_error decode w name = Some err ->
  exists w', exits (renderAll render names w) w' /\ keeps name w w'.
Proof.
  intros [Hframe Hfail]. revert w. induction names as [|p names IH]; intros w Hin Herr.
  - destruct Hin.
  - simpl. unfold bind. destruct (String.eqb_spec p name) as [->|Hne].
    + rewrite (Hfail name w err Herr). eexists. split; [do 2 eexists; reflexivity|].
      exists []. split; [intros []|apply load_failure_frame].
    + assert (Hp : keeps name w (fst (render p w))).
      { exists [p]. split; [|apply Hframe]. intros [->|[]]. now apply Hne. }
      destruct Hin as [->|Hin]; [now contradiction Hne|].
      destruct (render p w) as [w1 [msg e|[e|]]]; simpl in *.
      * eexists. split; [do 2 eexists; reflexivity | exact Hp].
      * eexists. split; [do 2 eexists; reflexivity | now apply keeps_Fatal].
      * destruct (IH w1 Hin) as (w' & Hex & Hk).
        { now rewrite (keeps_load_error decode name name w w1 Hp). }
        exists w'. split; [exact Hex | now apply keeps_trans with w1].
Qed.

Lemma main_stops_matrix Um Ub Render rng name w err :
  In name part_000.matrixFiles -> load_error Um w name = Some err ->
  exists w', exits (part_000.main Um Ub Render rng w) w' /\ keeps name w w'.
Proof.
  intros Hin Herr.
  destruct (renderAll_stops Um _ name _ w err
              (renderMatrixPage_renderer Um Render rng) Hin Herr)
    as (w' & (msg & e & Hrun) & Hk).
  exists w'. split; [|exact Hk]. exists msg, e.
  unfold part_000.main, bind. now rewrite Hrun.
Qed.

Lemma main_stops_battery Um Ub Render rng name w err :
  In name part_000.batteryMeasurementFiles -> ~ In name part_000.matrixFiles ->
  load_error Ub w name = Some err ->
  exists w', exits (part_000.main Um Ub Render rng w) w' /\ keeps name w w'.
Proof.
  intros Hin Hnot Herr.
  pose proof (renderAll_keeps Um _ name _ w (renderMatrixPage_renderer Um Render rng) Hnot)
    as Hk1.
  unfold part_000.main, bind.
  destruct (renderAll (part_000.renderMatrixPage Um Render rng) part_000.matrixFiles w)
    as [w1 [msg e|[]]]; simpl in Hk1.
  - exists w1. split; [do 2 eexists; reflexivity | exact Hk1].
  - destruct (renderAll_stops Ub _ name _ w1 err
                (renderBatteryMeasurementPage_renderer Ub Render) Hin)
      as (w' & (msg & e & Hrun) & Hk).
    { now rewrite (keeps_load_error Ub name name w w1 Hk1). }
    exists w'. split; [|now apply keeps_trans with w1]. exists msg, e. now rewrite Hrun.
Qed.

Lemma main_go_stops Um Render rng name w err :
  In name main_go.files -> load_error Um w name = Some err ->
  exists w', exits (main_go.main Um Render rng w) w' /\ keeps name w w'.
Proof.
  intros Hin Herr.
  destruct (renderAll_stops Um _ name _ w err (renderPage_renderer Um Render rng) Hin Herr)
    as (w' & (msg & e & Hrun) & Hk).
  exists w'. split; [|exact Hk]. exists msg, e.
  unfold main_go.main, bind. now rewrite Hrun.
Qed.

Lemma battery_not_matrix name :
  In name part_000.batteryMeasurementFiles -> ~ In name part_000.matrixFiles.
Proof.
  intros [<-|[]] H. simpl in H. repeat (destruct H as [H|H]; try discriminate H). exact H.
Qed.

(** C6. When the log of a page cannot be read, the load step of every
    page renderer ends the run with the [IOError] of that log, having
    only attempted the read: no file has changed.  A run of either
    program that has this page among its pages exits, and from its start
    to its end [html/<name>.html] is neither created nor truncated nor
    written. *)
Theorem unreadable_log_ends_run :
  forall (Um : string -> option matrix) (Ub : string -> option BatteryMeasurements)
         (Render : components.Page -> string * option Error) (rng : string -> Ranges)
         (name : string) (w : World),
    cannot_read w (logPath name) ->
    let err := IOError (logPath name) in
    let w' := record (EvFatal "matrix file missing " err)
                (record (EvReadFile (logPath name)) w) in
    part_000.renderMatrixPage Um Render rng name w = (w', Exited "matrix file missing " err)
    /\ part_000.renderBatteryMeasurementPage Ub Render name w
       = (w', Exited "matrix file missing " err)
    /\ main_go.renderPage Um Render rng name w = (w', Exited "matrix file missing " err)
    /\ files w' = files w
    /\ (In name (part_000.matrixFiles ++ part_000.batteryMeasurementFiles) ->
        exists w'', exits (part_000.main Um Ub Render rng w) w'' /\
                    untouched (htmlPath name) w w'')
    /\ (In name main_go.files ->
        exists w'', exits (main_go.main Um Render rng w) w'' /\
                    untouched (htmlPath name) w w'').
Proof.
  intros Um Ub Render rng name w Hread err w'.
  pose proof (cannot_read_load_error Um w name Hread) as HUm.
  pose proof (cannot_read_load_error Ub w name Hread) as HUb.
  split; [exact (proj2 (renderMatrixPage_renderer Um Render rng) name w err HUm)|].
  split; [exact (proj2 (renderBatteryMeasurementPage_renderer Ub Render) name w err HUb)|].
  split; [exact (proj2 (renderPage_renderer Um Render rng) name w err HUm)|].
  split; [reflexivity|]. split.
  - intros Hin. destruct (in_dec string_dec name part_000.matrixFiles) as [Hm|Hm].
    + destruct (main_stops_matrix Um Ub Render rng name w err Hm HUm) as (w'' & He & Hk).
      exists w''. split; [exact He | now apply keeps_untouched].
    + apply in_app_or in Hin as [Hin|Hin]; [contradiction|].
      destruct (main_stops_battery Um Ub Render rng name w err Hin Hm HUb) as (w'' & He & Hk).
      exists w''. split; [exact He | now apply keeps_untouched].
  - intros Hin.
    destruct (main_go_stops Um Render rng name w err Hin HUm) as (w'' & He & Hk).
    exists w''. split; [exact He | now apply keeps_untouched].
Qed.

Lemma unreadable_log_ends_run_witness :
  cannot_read empty_world (logPath "zero_host_downloader") /\
  part_000.renderMatrixPage no_decoder blank_renderer (fun _ => map_order)
    "zero_host_downloader" empty_world
  = (record (EvFatal "matrix file missing " (IOError "logs/zero_host_downloader.log"))
       (record (EvReadFile "logs/zero_host_downloader.log") empty_world),
     Exited "matrix file missing " (IOError "logs/zero_host_downloader.log")).
Proof.
  assert (H : cannot_read empty_world (logPath "zero_host_downloader"))
    by (left; reflexivity).
  split; [exact H|].
  exact (proj1 (unreadable_log_ends_run no_decoder no_decoder blank_renderer
                  (fun _ => map_order) "zero_host_downloader" empty_world H)).
Defined.




(** ** Formatting to one decimal and reading back *)

Lemma is_digit_cases c :
  is_digit c = true ->
  In c ["0"; "1"; "2"; "3"; "4"; "5"; "6"; "7"; "8"; "9"]%char.
Proof.
  destruct c as [[] [] [] [] [] [] [] []]; intros H; try discriminate H;
    simpl; tauto.
Qed.

Lemma digit_char_spec d :
  (d < 10)%N -> is_digit (digit_char d) = true /\ digit_val (digit_char d) = d.
Proof.
  intros H.
  assert (Hd : In d [0; 1; 2; 3; 4; 5; 6; 7; 8; 9]%N) by (simpl; lia).
  simpl in Hd. repeat (destruct Hd as [<-|Hd]; [split; reflexivity|]). destruct Hd.
Qed.

Lemma decimal_digits_all fuel n : all_digits (decimal_digits fuel n).
Proof.
  revert n. induction fuel as [|fuel IH]; intros n; simpl; [constructor|].
  apply Forall_app. split.
  - destruct (n <? 10)%N; [constructor | apply IH].
  - constructor; [|constructor]. apply digit_char_spec. apply N.mod_lt. discriminate.
Qed.

Lemma digits_value_app acc ds c :
  digits_value acc (ds ++ [c]) = (10 * digits_value acc ds + digit_val c)%N.
Proof. unfold digits_value. now rewrite fold_left_app. Qed.

Lemma decimal_digits_value fuel n :
  (n < 2 ^ N.of_nat fuel)%N -> digits_value 0 (decimal_digits fuel n) = n.
Proof.
  revert n. induction fuel as [|fuel IH]; intros n Hn.
  - simpl in Hn. assert (n = 0%N) by lia. now subst.
  - cbn [decimal_digits]. rewrite digits_value_app.
    rewrite (proj2 (digit_char_spec (n mod 10) (N.mod_lt n 10 ltac:(discriminate)))).
    destruct (n <? 10)%N eqn:E.
    + apply N.ltb_lt in E. simpl. rewrite N.mod_small by exact E. reflexivity.
    + apply N.ltb_ge in E. rewrite IH.
      * pose proof (N.div_mod n 10 ltac:(discriminate)). lia.
      * rewrite Nat2N.inj_succ, N.pow_succ_r' in Hn.
        apply N.Div0.div_lt_upper_bound. lia.
Qed.

Lemma FormatUint_value n : digits_value 0 (FormatUint n) = n.
Proof.
  unfold FormatUint. apply decimal_digits_value.
  rewrite Nat2N.inj_succ, N2Nat.id.
  destruct n as [|p]; [reflexivity|].
  apply N.log2_spec. reflexivity.
Qed.

Lemma FormatUint_head n :
  exists c r, FormatUint n = c :: r /\ is_digit c = true /\ all_digits r.
Proof.
  pose proof (decimal_digits_all (S (N.to_nat (N.log2 n))) n) as Hall.
  unfold FormatUint. destruct (decimal_digits _ n) as [|c r] eqn:E.
  - cbn [decimal_digits] in E. apply app_eq_nil in E as [_ E]. discriminate E.
  - inversion Hall; subst. now exists c, r.
Qed.

Lemma is_digit_not_point c : is_digit c = true -> Ascii.eqb c "."%char = false.
Proof.
  intros H. apply is_digit_cases in H. simpl in H.
  repeat (destruct H as [<-|H]; [reflexivity|]). destruct H.
Qed.

Lemma digit_starts_number c r :
  is_digit c = true ->
  special (c :: r) = None /\ special ("-"%char :: c :: r) = None /\
  strip_sign (c :: r) = (false, c :: r).
Proof.
  intros H. apply is_digit_cases in H. simpl in H.
  repeat (destruct H as [<-|H]; [repeat split; reflexivity|]). destruct H.
Qed.

Lemma scan_mantissa_digits ds rest sawdot sawdigits mant frac :
  all_digits ds ->
  scan_mantissa (ds ++ rest) sawdot sawdigits mant frac
  = scan_mantissa rest sawdot (match ds with [] => sawdigits | _ => true end)
      (digits_value mant ds) (if sawdot then frac + Z.of_nat (length ds) else frac).
Proof.
  intros Hall. revert sawdigits mant frac.
  induction Hall as [|c ds Hc _ IH]; intros sawdigits mant frac.
  - simpl. now destruct sawdot; rewrite ?Z.add_0_r.
  - cbn [app scan_mantissa]. rewrite (is_digit_not_point c Hc), Hc, IH.
    assert (Hsaw : match ds with [] => true | _ => true end = true) by now destruct ds.
    rewrite Hsaw. cbn [digits_value fold_left length]. f_equal.
    destruct sawdot; lia.
Qed.

(** What [ParseFloat] reads in the text that [%.1f] prints for a finite
    number: the tenths. *)
Lemma parse_float_tenths prec emax neg q r :
  (r < 10)%N ->
  parse_float prec emax (sign_chars neg ++ FormatUint q ++ ["."%char] ++ [digit_char r])
  = decimal_to_float prec emax neg (10 * q + r) (-1).
Proof.
  intros Hr. destruct (digit_char_spec r Hr) as [Hd Hv].
  destruct (FormatUint_head q) as (c & ds & Hq & Hc & Hds).
  pose proof (FormatUint_value q) as Hval.
  assert (Hscan : scan_mantissa (FormatUint q ++ ["."%char] ++ [digit_char r]) false false 0%N 0
                  = (true, (10 * q + r)%N, 1, [])).
  { rewrite scan_mantissa_digits by (rewrite Hq; now constructor).
    rewrite Hval, Hq. cbn [app scan_mantissa]. rewrite Hd, (is_digit_not_point _ Hd), Hv.
    reflexivity. }
  destruct (digit_starts_number c (ds ++ ["."%char] ++ [digit_char r]) Hc) as (Hs1 & Hs2 & Hs3).
  unfold parse_float. destruct neg; cbn [sign_chars app].
  - rewrite Hq in *. cbn [app] in *. rewrite Hs2. cbn [strip_sign]. 
    change ("-"%char :: c :: ds ++ ["."%char] ++ [digit_char r]) with
      ("-"%char :: (c :: ds) ++ ["."%char] ++ [digit_char r]).
    rewrite Hscan. reflexivity.
  - rewrite Hq in *. cbn [app] in *. rewrite Hs1, Hs3, Hscan. reflexivity.
Qed.

Lemma ParseFloat_Sprintf_1f x :
  ParseFloat (Sprintf_1f x)
  = match x with
    | S754_finite s m e => decimal_to_float 53 1024 s (tenths m e) (-1)
    | _ => (x, None)
    end.
Proof.
  unfold ParseFloat, Sprintf_1f. rewrite list_ascii_of_string_of_list_ascii.
  destruct x as [[]|[]| |s m e]; try reflexivity.
  cbn [fmt_1f]. rewrite parse_float_tenths by (apply N.mod_lt; discriminate).
  f_equal. pose proof (N.div_mod (tenths m e) 10 ltac:(discriminate)). lia.
Qed.

Lemma reparse_round_one_decimal x :
  fst (ParseFloat (Sprintf_1f x)) = round_one_decimal x.
Proof. rewrite ParseFloat_Sprintf_1f. now destruct x. Qed.

Lemma decimal_to_float_no_syntax_error prec emax neg mant exp10 :
  snd (decimal_to_float prec emax neg mant exp10) <> Some ErrSyntax.
Proof.
  unfold decimal_to_float. destruct mant; [discriminate|].
  now destruct (match exp10 with Zneg _ => _ | _ => _ end).
Qed.

Lemma ParseFloat_syntax_error s :
  snd (ParseFloat s) = Some ErrSyntax -> fst (ParseFloat s) = S754_zero false.
Proof.
  unfold ParseFloat, parse_float.
  destruct (special _); [discriminate|].
  destruct (strip_sign _) as [neg r].
  destruct (scan_mantissa _ _ _ _ _) as [[[sawdigits mant] frac] r1].
  destruct sawdigits; [|reflexivity].
  destruct (scan_exponent r1) as [[e [|c rest]]|]; try reflexivity.
  intros H. now apply decimal_to_float_no_syntax_error in H.
Qed.

Lemma even_of_N q : Z.even (Z.of_N q) = N.even q.
Proof. destruct q as [|[p|p|]]; reflexivity. Qed.

(** [tenths] is the integer nearest to ten times the number, the even one
    of the two when the number is halfway. *)
Lemma tenths_nearest m e :
  match e with
  | Zneg p =>
      let d := 2 ^ Zpos p in
      let t := Z.of_N (tenths m e) in
      2 * Z.abs (10 * Zpos m - t * d) <= d /\
      (2 * Z.abs (10 * Zpos m - t * d) = d -> Z.even t = true)
  | _ => Z.of_N (tenths m e) = 10 * Zpos m * 2 ^ e
  end.
Proof.
  destruct e as [|p|p].
  - simpl. lia.
  - unfold tenths. rewrite !N2Z.inj_mul, N2Z.inj_pow, Z2N.id by lia. reflexivity.
  - cbv zeta. unfold tenths.
    set (d := (2 ^ N.pos p)%N).
    assert (Hd : (0 < d)%N) by (apply N.neq_0_lt_0, N.pow_nonzero; discriminate).
    replace (2 ^ Z.pos p) with (Z.of_N d)
      by (unfold d; now rewrite N2Z.inj_pow).
    pose proof (N.div_mod (10 * N.pos m) d ltac:(lia)) as Hdm.
    pose proof (N.mod_lt (10 * N.pos m) d ltac:(lia)) as Hlt.
    set (q := (10 * N.pos m / d)%N) in *. set (r := ((10 * N.pos m) mod d)%N) in *.
    assert (Hz : 10 * Z.pos m = Z.of_N d * Z.of_N q + Z.of_N r) by lia.
    assert (Hq : 10 * Z.pos m - Z.of_N q * Z.of_N d = Z.of_N r) by lia.
    assert (Hq1 : 10 * Z.pos m - Z.of_N (q + 1) * Z.of_N d = Z.of_N r - Z.of_N d) by lia.
    destruct (2 * r ?= d)%N eqn:E.
    + apply N.compare_eq in E. destruct (N.even q) eqn:Ev.
      * rewrite Hq. split; [lia|]. intros _. now rewrite even_of_N.
      * rewrite Hq1. split; [lia|]. intros _.
        now rewrite N2Z.inj_add, Z.even_add, even_of_N, Ev.
    + assert (E' : (2 * r < d)%N) by exact E.
      rewrite Hq. split; [lia | intros H; exfalso; lia].
    + assert (E' : (d < 2 * r)%N) by now apply N.compare_gt_iff.
      rewrite Hq1. split; [lia | intros H; exfalso; lia].
Qed.

(** ** The text of a [float32] always reads back *)

Lemma iter_pos_invariant {A : Type} (P : A -> Prop) (f : A -> A) :
  (forall x, P x -> P (f x)) -> forall p x, P x -> P (SpecFloat.iter_pos f p x).
Proof.
  intros Hf. induction p as [p IH|p IH|]; intros x Hx; simpl; auto.
Qed.

Lemma shr_1_bound M mrs :
  0 <= shr_m mrs <= M -> 0 <= shr_m (shr_1 mrs) <= M.
Proof. destruct mrs as [[|[p|p|]|[p|p|]] r s]; simpl; lia. Qed.

Lemma shr_bound M mrs e n :
  0 <= shr_m mrs <= M ->
  0 <= shr_m (fst (shr mrs e n)) <= M /\ snd (shr mrs e n) = Z.max e (e + n).
Proof.
  intros H. destruct n as [|p|p]; simpl; try (split; [exact H | lia]).
  split; [|lia]. apply (iter_pos_invariant (fun mrs => 0 <= shr_m mrs <= M)); [|exact H].
  apply shr_1_bound.
Qed.

Lemma shr_fexp_bound prec emax m e l :
  0 <= m ->
  0 <= shr_m (fst (shr_fexp prec emax m e l)) <= m /\
  snd (shr_fexp prec emax m e l) = Z.max e (fexp prec emax (Zdigits2 m + e)).
Proof.
  intros Hm. unfold shr_fexp.
  destruct (shr_bound m (shr_record_of_loc m l) e (fexp prec emax (Zdigits2 m + e) - e))
    as [H1 H2].
  { now destruct l as [|[]]; simpl; lia. }
  split; [exact H1|]. rewrite H2. f_equal. lia.
Qed.

Lemma digits2_pos_size p : digits2_pos p = Pos.size p.
Proof. induction p as [p IH|p IH|]; simpl; now rewrite ?IH. Qed.

Lemma Zdigits2_bound m k : 0 <= k -> 0 <= m < 2 ^ k -> 0 <= Zdigits2 m <= k.
Proof.
  intros Hk [Hm Hlt]. destruct m as [|p|p]; simpl; [lia| |lia].
  rewrite digits2_pos_size. split; [lia|].
  pose proof (Pos.size_le p) as Hle.
  destruct (Z_le_gt_dec (Z.pos (Pos.size p)) k) as [H|H]; [exact H|exfalso].
  assert (Hpow : 2 ^ (k + 1) <= 2 ^ Z.pos (Pos.size p)) by (apply Z.pow_le_mono_r; lia).
  rewrite Z.pow_add_r, Z.pow_1_r in Hpow by lia.
  assert (Hs : 2 ^ Z.pos (Pos.size p) <= 2 * Z.pos p).
  { change (2 * Z.pos p) with (Z.pos p~0). rewrite <- Pos2Z.inj_pow. exact Hle. }
  lia.
Qed.

Lemma round_nearest_even_bound m l : m <= round_nearest_even m l <= m + 1.
Proof. destruct l as [|[]]; simpl; try lia. destruct (Z.even m); lia. Qed.

(** Rounding a mantissa below [2^k] with an exponent that is not
    positive does not overflow, with room to spare. *)
Lemma binary_round_aux_no_overflow sx mz ez lz k :
  0 <= k <= 400 -> 0 <= mz < 2 ^ k -> ez <= 0 ->
  forall s, binary_round_aux 53 1024 sx mz ez lz <> S754_infinity s.
Proof.
  intros Hk Hmz Hez s. unfold binary_round_aux.
  destruct (shr_fexp_bound 53 1024 mz ez lz (proj1 Hmz)) as [Hm1 He1].
  destruct (shr_fexp 53 1024 mz ez lz) as [mrs' e'] eqn:E1. simpl in Hm1, He1.
  pose proof (round_nearest_even_bound (shr_m mrs') (loc_of_shr_record mrs')) as Hrne.
  set (m1 := round_nearest_even (shr_m mrs') (loc_of_shr_record mrs')) in *.
  destruct (shr_fexp_bound 53 1024 m1 e' loc_Exact ltac:(lia)) as [Hm2 He2].
  destruct (shr_fexp 53 1024 m1 e' loc_Exact) as [mrs'' e''] eqn:E2. simpl in Hm2, He2.
  pose proof (Zdigits2_bound mz k ltac:(lia) Hmz) as Hd1.
  assert (Hm1k : 0 <= m1 < 2 ^ (k + 1)).
  { rewrite Z.pow_add_r, Z.pow_1_r by lia. lia. }
  pose proof (Zdigits2_bound m1 (k + 1) ltac:(lia) Hm1k) as Hd2.
  unfold fexp, emin in He1, He2.
  assert (He : e'' <= 1024 - 53) by lia.
  destruct (shr_m mrs'') as [|p|p]; try discriminate.
  apply Z.leb_le in He. rewrite He. discriminate.
Qed.

Lemma tenths_as_float64_finite sx p :
  Z.pos p < 2 ^ 132 ->
  forall s, SFdiv 53 1024 (S754_finite sx p 0) (S754_finite false 10 0) <> S754_infinity s.
Proof.
  intros Hp s. unfold SFdiv, SFdiv_core_binary.
  pose proof (Zdigits2_bound (Z.pos p) 132 ltac:(lia) ltac:(lia)) as Hd.
  assert (Hd1 : 1 <= Zdigits2 (Z.pos p)) by (simpl; lia).
  change (Zdigits2 10) with 4.
  set (e' := Z.min (fexp 53 1024 (Zdigits2 (Z.pos p) + 0 - (4 + 0))) (0 - 0)).
  assert (He' : - 56 <= e' <= 0) by (unfold e', fexp, emin; lia).
  set (m' := match 0 - 0 - e' with
             | Z.pos _ => Z.shiftl (Z.pos p) (0 - 0 - e')
             | 0 => Z.pos p
             | Z.neg _ => 0
             end).
  assert (Hm' : 0 <= m' < 2 ^ 188).
  { assert (Hsh : 0 <= Z.pos p * 2 ^ (0 - 0 - e') < 2 ^ 188).
    { assert (H2 : 0 < 2 ^ (0 - 0 - e') <= 2 ^ 56).
      { split; [apply Z.pow_pos_nonneg; lia | apply Z.pow_le_mono_r; lia]. }
      change (2 ^ 188) with (2 ^ 132 * 2 ^ 56). nia. }
    unfold m'. destruct (0 - 0 - e') as [|q|q] eqn:Es.
    - lia.
    - rewrite Z.shiftl_mul_pow2 by lia. exact Hsh.
    - lia. }
  pose proof (Z_div_mod m' 10 ltac:(lia)) as Hdiv.
  destruct (Z.div_eucl m' 10) as [q r].
  apply (binary_round_aux_no_overflow _ _ _ _ 188); lia.
Qed.

Lemma float32_mantissa_bound m e :
  bounded 24 128 m e = true -> Z.pos m < 2 ^ 24 /\ e <= 104.
Proof.
  unfold bounded, canonical_mantissa, fexp, emin.
  rewrite andb_true_iff, Z.eqb_eq, Z.leb_le. intros [Hc He]. split; [|lia].
  rewrite digits2_pos_size in Hc.
  assert (Hs : Z.pos (Pos.size m) <= 24) by lia.
  pose proof (Pos.size_gt m) as Hgt.
  assert (Hpow : 2 ^ Z.pos (Pos.size m) <= 2 ^ 24) by (apply Z.pow_le_mono_r; lia).
  assert (Hlt : Z.pos m < 2 ^ Z.pos (Pos.size m)).
  { rewrite <- Pos2Z.inj_pow. apply Pos2Z.pos_lt_pos, Hgt. }
  lia.
Qed.

Lemma float32_tenths_bound m e :
  bounded 24 128 m e = true -> Z.of_N (tenths m e) < 2 ^ 132.
Proof.
  intros Hb. destruct (float32_mantissa_bound m e Hb) as [Hm He].
  pose proof (tenths_nearest m e) as Hn. destruct e as [|p|p].
  - rewrite Hn. simpl. lia.
  - rewrite Hn.
    assert (H2 : 0 < 2 ^ Z.pos p <= 2 ^ 104).
    { split; [apply Z.pow_pos_nonneg; lia | apply Z.pow_le_mono_r; lia]. }
    change (2 ^ 132) with (2 ^ 28 * 2 ^ 104). nia.
  - cbv zeta in Hn. destruct Hn as [Hn _].
    assert (H2 : 1 <= 2 ^ Z.pos p) by (apply (Z.pow_le_mono_r 2 0); lia).
    set (t := Z.of_N (tenths m (Z.neg p))) in *.
    set (d := 2 ^ Z.pos p) in *.
    assert (Ht : t * d <= 10 * Z.pos m + d) by lia.
    assert (Htd : t <= t * d \/ t <= 0) by nia.
    change (2 ^ 132) with (2 ^ 28 * 2 ^ 104). nia.
Qed.

(** The text that [%.1f] prints for a [float32] always reads back
    without error: the zero that [downloadSpeed] would store after a
    failure never arises. *)
Lemma reparse_never_fails x :
  valid_binary 24 128 x = true -> snd (ParseFloat (Sprintf_1f x)) = None.
Proof.
  intros Hv. rewrite ParseFloat_Sprintf_1f. destruct x as [s|s| |s m e]; try reflexivity.
  simpl in Hv. pose proof (float32_tenths_bound m e Hv) as Ht.
  unfold decimal_to_float. destruct (tenths m e) as [|p]; [reflexivity|].
  change (10 ^ 1)%positive with 10%positive.
  pose proof (tenths_as_float64_finite s p Ht) as Hfin.
  destruct (SFdiv 53 1024 (S754_finite s p 0) (S754_finite false 10 0)) as [| s' | |];
    try reflexivity.
  now contradiction (Hfin s').
Qed.

(** ** The download-speed series *)

(** C2. Under every order of the visit of [ContentMatrix], the
    "Download Speed" series of both programs holds one point for each
    entry of the map, and its value is the [AvgSpeed] of the entry rounded
    to one decimal place: the [float64] nearest to [t / 10], where [t] is
    the integer nearest to ten times the [AvgSpeed] (the even one at a
    tie).  This is the number that reading back the text printed by
    [%.1f] gives; a text that does not read as a number would give zero,
    but the text printed for a [float32] always reads back.  The
    [float32] of [3.14] is printed as [3.1] and gives the [float64] of
    [3.1]. *)
Theorem downloadSpeed_points :
  forall (data : matrix) (contents : list (string * ContentMatrix.t)),
    ranges (ContentMatrix data) contents ->
    let rounded kv :=
      opts.Build_LineData (VFloat64 (round_one_decimal (ContentMatrix.AvgSpeed (snd kv)))) in
    series "Download Speed" (part_000.downloadSpeed contents) = Some (map rounded contents)
    /\ series "Download Speed" (main_go.downloadSpeed contents) = Some (map rounded contents)
    /\ length contents = size (ContentMatrix data)
    /\ (forall kv, In kv contents <-> ContentMatrix data !! fst kv = Some (snd kv))
    /\ (forall x, round_one_decimal x = fst (ParseFloat (Sprintf_1f x)))
    /\ (forall s m e,
          round_one_decimal (S754_finite s m e)
          = fst (decimal_to_float 53 1024 s (tenths m e) (-1))
          /\ match e with
             | Zneg p =>
                 let d := 2 ^ Zpos p in
                 let t := Z.of_N (tenths m e) in
                 2 * Z.abs (10 * Zpos m - t * d) <= d /\
                 (2 * Z.abs (10 * Zpos m - t * d) = d -> Z.even t = true)
             | _ => Z.of_N (tenths m e) = 10 * Zpos m * 2 ^ e
             end)
    /\ (forall s, snd (ParseFloat s) = Some ErrSyntax -> fst (ParseFloat s) = S754_zero false)
    /\ (forall x, valid_binary 24 128 x = true -> snd (ParseFloat (Sprintf_1f x)) = None)
    /\ (forall kv, In kv contents -> ContentMatrix.AvgSpeed (snd kv) = avg_3_14 ->
          Sprintf_1f (ContentMatrix.AvgSpeed (snd kv)) = "3.1"%string
          /\ rounded kv = opts.Build_LineData (VFloat64 f64_3_1)).
Proof.
  intros data contents Hr rounded.
  destruct (downloadSpeed_chart contents) as (_ & Hs & _ & Hm). cbv zeta in Hs, Hm.
  rewrite (series_same _ _ _ Hm), Hs, downloadSpeed_loop_spec, emit_all_nil. simpl.
  assert (Hmap : map opts.Build_LineData
                   (map (fun kv => speed_value (ContentMatrix.AvgSpeed (snd kv))) contents)
                 = map rounded contents).
  { rewrite map_map. apply map_ext. intros kv. unfold rounded, speed_value.
    now rewrite reparse_round_one_decimal. }
  rewrite Hmap. split; [reflexivity|]. split; [reflexivity|].
  split; [|split; [|split; [|split; [|split; [|split]]]]].
  - unfold ranges in Hr. now rewrite Hr, length_map_to_list.
  - intros [k v]. apply (ranges_elem _ _ _ _ Hr).
  - intros x. symmetry. apply reparse_round_one_decimal.
  - intros s m e. split; [reflexivity | apply tenths_nearest].
  - apply ParseFloat_syntax_error.
  - apply reparse_never_fails.
  - intros kv _ Havg. unfold rounded. rewrite Havg. split; vm_compute; reflexivity.
Qed.

Lemma downloadSpeed_points_witness :
  ranges (ContentMatrix content_matrix) content_order /\
  series "Download Speed" (part_000.downloadSpeed content_order)
  = Some [opts.Build_LineData (VFloat64 (round_one_decimal avg_3_14))].
Proof.
  assert (Hr : ranges (ContentMatrix content_matrix) content_order)
    by (unfold ranges; vm_compute; reflexivity).
  split; [exact Hr|].
  exact (proj1 (downloadSpeed_points content_matrix content_order Hr)).
Defined.

(** ** Runs of the models on sample inputs *)

(** Visiting every map in its own order is one of the orders that a
    [range] may take. *)
Lemma map_order_valid : valid_ranges map_order.
Proof. split; intros; unfold ranges; reflexivity. Qed.

(** The [int64] subtraction wraps around at the ends of the range. *)
Example sub64_in_range : sub64 100 105 = -5.
Proof. reflexivity. Qed.

Example sub64_wraps : sub64 (2 ^ 63 - 1) (-1) = - 2 ^ 63.
Proof. reflexivity. Qed.

Example Sprintf_1f_tie_down : Sprintf_1f (S754_finite false 1 (-2)) = "0.2"%string.
Proof. reflexivity. Qed.

Example Sprintf_1f_tie_up : Sprintf_1f (S754_finite false 3 (-2)) = "0.8"%string.
Proof. reflexivity. Qed.

Example Sprintf_1f_negative_zero : Sprintf_1f (S754_finite true 1 (-149)) = "-0.0"%string.
Proof. reflexivity. Qed.

Example Sprintf_1f_largest :
  Sprintf_1f (S754_finite false 16777215 104)
  = "340282346638528859811704183484516925440.0"%string.
Proof. vm_compute. reflexivity. Qed.

Example ParseFloat_tenth : ParseFloat "0.1" = (S754_finite false 7205759403792794 (-56), None).
Proof. vm_compute. reflexivity. Qed.

Example ParseFloat_exponent :
  ParseFloat "1e-3" = (S754_finite false 4611686018427388 (-62), None).
Proof. vm_compute. reflexivity. Qed.

Example ParseFloat_two_points : ParseFloat "1.2.3" = (S754_zero false, Some ErrSyntax).
Proof. vm_compute. reflexivity. Qed.

Example ParseFloat_too_large : ParseFloat "1e400" = (S754_infinity false, Some ErrRange).
Proof. vm_compute. reflexivity. Qed.

Example bleToWifi_two_nodes :
  part_000.bleToWifi two_nodes_order2
  = charts.SetSeriesOptions [charts.WithAreaStyleOpts 2; charts.WithLineChartOpts true]
      (charts.AddSeries "BLE to Wifi"
         [opts.Build_LineData (VInt64 30); opts.Build_LineData (VInt64 5)]
         (charts.SetXAxis [0; 1]
            (charts.SetGlobalOptions
               [charts.WithTitleOpts "Seconds from BLE discovery to Successful Wifi connection";
                charts.WithXAxisOpts "Count"; charts.WithYAxisOpts "Seconds";
                charts.WithTooltipOpts true; charts.WithLegendOpts true "80%"]
               charts.NewLine))).
Proof. reflexivity. Qed.

(** With every log in place the program renders all its pages, in the
    order of its lists, and ends up serving them. *)
Example full_run :
  let run := part_000.main decode_scenario decode_sample_battery blank_renderer
               (fun _ => map_order) full_world in
  snd run = Val tt
  /\ last (trace (fst run)) = Some (EvListenAndServe "localhost:8089")
  /\ List.filter (fun ev => match ev with EvCreate _ => true | _ => false end)
       (trace (fst run))
     = map (fun name => EvCreate (htmlPath name))
         (part_000.matrixFiles ++ part_000.batteryMeasurementFiles)
  /\ map (fun name => files (fst run) !! htmlPath name)
       (part_000.matrixFiles ++ part_000.batteryMeasurementFiles)
     = [Some EmptyString; Some EmptyString; Some EmptyString; Some EmptyString;
        Some EmptyString].
Proof. vm_compute. repeat split. Qed.

(** Without the log of the third page the run ends there: two pages have
    been written, the third and the later ones have not. *)
Example third_missing_run :
  let run := part_000.main decode_scenario decode_sample_battery blank_renderer
               (fun _ => map_order) third_missing_world in
  snd run = Exited "matrix file missing " (IOError "logs/five_host_downloader.log")
  /\ map (fun name => files (fst run) !! htmlPath name)
       (part_000.matrixFiles ++ part_000.batteryMeasurementFiles)
     = [Some EmptyString; Some EmptyString; None; None; None].
Proof. vm_compute. repeat split. Qed.

(** * Further properties of the run *)

(** ** One page *)

Lemma loaded_load_error {A : Type} (decode : string -> option A) w name :
  load_error decode w name = None <-> exists data, loaded decode w name = Some data.
Proof.
  unfold load_error, loaded. destruct (files w !! logPath name) as [c|].
  - destruct (decide (logPath name ∈ unreadable w)).
    + split; [discriminate | intros [d Hd]; discriminate].
    + destruct (decode c) as [d|]; split; try discriminate; eauto.
      intros [d Hd]; discriminate.
  - split; [discriminate | intros [d Hd]; discriminate].
Qed.

Ltac page_writer_tac :=
  intros name w data Hload; unfold loaded in Hload;
  destruct (files w !! logPath name) as [file|] eqn:Hfile; [|discriminate Hload];
  destruct (decide (logPath name ∈ unreadable w)) as [|Hr] eqn:Hdec;
    [discriminate Hload|];
  cbv zeta;
  unfold part_000.renderMatrixPage, part_000.renderBatteryMeasurementPage,
    main_go.renderPage, bind, ReadFile, Unmarshal, aggregate, Create, RenderTo, Fatal,
    matrix_page, matrix_page_go, battery_page, page_events, matrix_aggregators,
    battery_aggregators;
  cbn [files unreadable unwritable trace record write fst snd map app];
  rewrite Hfile, Hdec, Hload;
  cbn [files unreadable unwritable trace record write fst snd map app];
  destruct (decide (htmlPath name ∈ unwritable w));
    [ unfold record, write; cbn [files unreadable unwritable trace];
      rewrite <- ?app_assoc; reflexivity
    | match goal with |- context [let '(_, _) := ?x in _] => destruct x as [html err] end;
      unfold record, write; cbn [files unreadable unwritable trace fst snd];
      rewrite insert_insert_eq, <- ?app_assoc; reflexivity ].

Lemma renderMatrixPage_writer Um Render rng :
  page_writer Um Render (fun name => matrix_page (rng name)) matrix_aggregators
    (part_000.renderMatrixPage Um Render rng).
Proof. page_writer_tac. Qed.

Lemma renderPage_writer Um Render rng :
  page_writer Um Render (fun name => matrix_page_go (rng name)) matrix_aggregators
    (main_go.renderPage Um Render rng).
Proof. page_writer_tac. Qed.


(** ** A loop over pages that all render *)

Section Pages.
Context {A : Type}.
Variable decode : string -> option A.
Variable Render : components.Page -> string * option Error.
Variable page_of : string -> A -> components.Page.
Variable aggs : list string.
Variable render : string -> Proc (option Error).
Hypothesis render_writer : page_writer decode Render page_of aggs render.

Lemma loaded_after_write (w : World) name q text :
  loaded decode
    {| files := <[htmlPath name := text]> (files w); unreadable := unreadable w;
       unwritable := unwritable w; trace := trace w |} q
  = loaded decode w q.
Proof.
  unfold loaded. simpl. rewrite lookup_insert_ne; [reflexivity|apply htmlPath_logPath].
Qed.

Lemma loaded_same_files (w w' : World) q :
  files w' !! logPath q = files w !! logPath q -> unreadable w' = unreadable w ->
  loaded decode w' q = loaded decode w q.
Proof. unfold loaded. now intros -> ->. Qed.

(** A page that loads, can be written and is rendered without error. *)
Lemma render_page_ok name w data :
  loaded decode w name = Some data -> htmlPath name ∉ unwritable w ->
  snd (Render (page_of name data)) = None ->
  exists w', render name w = (w', Val None) /\
             pages_rendered decode Render page_of aggs [name] w w'.
Proof.
  intros Hl Hw Hr. pose proof (render_writer name w data Hl) as H. cbv zeta in H.
  destruct (decide (htmlPath name ∈ unwritable w)); [contradiction|].
  rewrite Hr in H. eexists. split; [exact H|].
  unfold pages_rendered. simpl. repeat split.
  - intros name' data' [<-|[]] Hl'. rewrite Hl in Hl'. injection Hl' as <-.
    apply lookup_insert_eq.
  - intros q Hq. apply lookup_insert_ne. intros Heq. apply (Hq name); [now left|now symmetry].
  - unfold rendered_events. now rewrite app_nil_r.
Qed.

Lemma all_pages_ok_after names w w' :
  (forall q, files w' !! logPath q = files w !! logPath q) ->
  unreadable w' = unreadable w -> unwritable w' = unwritable w ->
  all_pages_ok decode Render page_of names w ->
  all_pages_ok decode Render page_of names w'.
Proof.
  intros Hf Hr Hw Hok name Hin. destruct (Hok name Hin) as (Hnw & data & Hl & Hrn).
  split; [now rewrite Hw|]. exists data. split; [|exact Hrn].
  now rewrite (loaded_same_files w w' name (Hf name) Hr).
Qed.

Lemma pages_rendered_logs names w w' q :
  pages_rendered decode Render page_of aggs names w w' ->
  files w' !! logPath q = files w !! logPath q.
Proof.
  intros (_ & Hf & _). apply Hf. intros name _ H. symmetry in H.
  now apply htmlPath_logPath in H.
Qed.

Lemma renderAll_ok names w :
  List.NoDup names -> all_pages_ok decode Render page_of names w ->
  exists w', renderAll render names w = (w', Val tt) /\
             pages_rendered decode Render page_of aggs names w w'.
Proof.
  revert w. induction names as [|name rest IH]; intros w Hnd Hok.
  - exists w. split; [reflexivity|]. unfold pages_rendered. simpl.
    rewrite app_nil_r. repeat split. intros name data [].
  - apply List.NoDup_cons_iff in Hnd as [Hnotin Hnd].
    destruct (Hok name (or_introl eq_refl)) as (Hnw & data & Hl & Hrn).
    destruct (render_page_ok name w data Hl Hnw Hrn) as (w1 & Hrun & H1).
    pose proof H1 as (Hc1 & Hf1 & Hr1 & Hw1 & Ht1).
    destruct (IH w1 Hnd) as (w' & Hall & H2).
    { apply (all_pages_ok_after rest w w1);
        [intros q; apply (pages_rendered_logs [name] w w1 q H1) | exact Hr1 | exact Hw1 |].
      intros q Hq. apply Hok. now right. }
    pose proof H2 as (Hc2 & Hf2 & Hr2 & Hw2 & Ht2).
    exists w'. split.
    { cbn [renderAll]. unfold bind. rewrite Hrun. exact Hall. }
    unfold pages_rendered. repeat split.
    + intros q d [<-|Hin] Hlq.
      * rewrite Hf2; [now apply Hc1; [left|]|].
        intros q' Hq' Heq. apply htmlPath_inj in Heq. now subst.
      * apply Hc2; [exact Hin|].
        now rewrite (loaded_same_files w w1 q (pages_rendered_logs [name] w w1 q H1) Hr1).
    + intros q Hq. rewrite Hf2, Hf1; [reflexivity| |].
      * intros n [<-|[]]. apply Hq. now left.
      * intros n Hn. apply Hq. now right.
    + congruence.
    + congruence.
    + rewrite Ht2, Ht1. simpl. now rewrite app_nil_r, <- app_assoc.
Qed.

Lemma renderAll_app pre rest w w1 :
  renderAll render pre w = (w1, Val tt) ->
  renderAll render (pre ++ rest) w = renderAll render rest w1.
Proof.
  revert w. induction pre as [|p pre IH]; intros w; simpl.
  - now intros [= ->].
  - unfold bind. destruct (render p w) as [w2 [msg e|[e|]]].
    + discriminate.
    + unfold Fatal. discriminate.
    + apply IH.
Qed.
End Pages.

Lemma load_error_same_files {A : Type} (decode : string -> option A) (w w' : World) q :
  files w' !! logPath q = files w !! logPath q -> unreadable w' = unreadable w ->
  load_error decode w' q = load_error decode w q.
Proof. unfold load_error. now intros -> ->. Qed.


(** A loop over pages stops at the first page that the charting library
    fails to render, with the text written so far left in its file. *)
Lemma renderAll_render_error {A : Type} (decode : string -> option A) Render page_of aggs
    render pre name post w data err :
  page_writer decode Render page_of aggs render ->
  List.NoDup pre -> ~ In name pre -> all_pages_ok decode Render page_of pre w ->
  loaded decode w name = Some data -> htmlPath name ∉ unwritable w ->
  snd (Render (page_of name data)) = Some err ->
  exists w', renderAll render (pre ++ name :: post) w = (w', Exited "Page render failed " err) /\
             files w' !! htmlPath name = Some (fst (Render (page_of name data))) /\
             (forall p d, In p pre -> loaded decode w p = Some d ->
                files w' !! htmlPath p = Some (fst (Render (page_of p d)))).
Proof.
  intros Hwr Hnd Hnotin Hok Hl Hnw Hre.
  destruct (renderAll_ok decode Render page_of aggs render Hwr pre w Hnd Hok)
    as (w1 & Hrun & H1).
  pose proof H1 as (Hc1 & Hf1 & Hr1 & Hw1 & Ht1).
  assert (Hl1 : loaded decode w1 name = Some data).
  { rewrite <- Hl. apply loaded_same_files; [|exact Hr1].
    exact (pages_rendered_logs decode Render page_of aggs pre w w1 name H1). }
  pose proof (Hwr name w1 data Hl1) as Hpage. cbv zeta in Hpage.
  destruct (decide (htmlPath name ∈ unwritable w1)) as [Hin|_];
    [rewrite Hw1 in Hin; contradiction|].
  rewrite Hre in Hpage.
  eexists. split; [|split].
  - rewrite (renderAll_app render pre (name :: post) w w1 Hrun).
    cbn [renderAll]. unfold bind. rewrite Hpage. reflexivity.
  - simpl. apply lookup_insert_eq.
  - intros p d Hp Hlp. simpl. rewrite lookup_insert_ne; [now apply Hc1|].
    intros Heq. apply htmlPath_inj in Heq. now subst.
Qed.

Lemma matrixFiles_NoDup : List.NoDup part_000.matrixFiles.
Proof.
  unfold part_000.matrixFiles.
  repeat (constructor; [simpl; intuition discriminate|]). constructor.
Qed.


Lemma files_NoDup : List.NoDup main_go.files.
Proof.
  unfold main_go.files.
  repeat (constructor; [simpl; intuition discriminate|]). constructor.
Qed.

(** ** Runs that reach the server *)





(** ** Runs that end early *)



(** X4. When the four matrix pages render and the battery log has an error,
    the run ends with that error, logged as a missing matrix file, after
    the four matrix pages have been written; the battery output is as it
    was. *)
Theorem battery_failure_after_matrix_pages :
  forall (Um : string -> option matrix) (Ub : string -> option BatteryMeasurements)
         (Render : components.Page -> string * option Error) (rng : string -> Ranges)
         (name : string) (w : World) (err : Error),
    all_pages_ok Um Render (fun p => matrix_page (rng p)) part_000.matrixFiles w ->
    In name part_000.batteryMeasurementFiles ->
    load_error Ub w name = Some err ->
    exists w',
      part_000.main Um Ub Render rng w = (w', Exited "matrix file missing " err)
      /\ (forall p data, In p part_000.matrixFiles -> loaded Um w p = Some data ->
            files w' !! htmlPath p = Some (fst (Render (matrix_page (rng p) data))))
      /\ files w' !! htmlPath name = files w !! htmlPath name.
Proof.
  intros Um Ub Render rng name w err Hok Hin Herr.
  destruct (renderAll_ok Um Render _ matrix_aggregators _
              (renderMatrixPage_writer Um Render rng) part_000.matrixFiles w
              matrixFiles_NoDup Hok)
    as (w1 & Hrun1 & H1).
  pose proof H1 as (Hc1 & Hf1 & Hr1 & Hw1 & Ht1).
  assert (Herr1 : load_error Ub w1 name = Some err).
  { rewrite <- Herr. apply load_error_same_files; [|exact Hr1].
    exact (pages_rendered_logs Um Render _ _ _ w w1 name H1). }
  destruct Hin as [<-|[]].
  exists (load_failure "battery_measurements" err w1). split; [|split].
  - unfold part_000.main, bind. rewrite Hrun1. cbn [renderAll part_000.batteryMeasurementFiles].
    unfold bind.
    now rewrite (proj2 (renderBatteryMeasurementPage_renderer Ub Render) _ w1 err Herr1).
  - intros p data Hp Hl. rewrite <- (Hc1 p data Hp Hl). now destruct err.
  - rewrite <- (Hf1 (htmlPath "battery_measurements")); [now destruct err|].
    intros p Hp Heq. apply htmlPath_inj in Heq. subst p.
    now apply (battery_not_matrix "battery_measurements" (or_introl eq_refl)).
Qed.

Lemma battery_failure_after_matrix_pages_witness :
  all_pages_ok decode_scenario blank_renderer (fun p => matrix_page map_order)
    part_000.matrixFiles battery_missing_world
  /\ In "battery_measurements"%string part_000.batteryMeasurementFiles
  /\ load_error decode_sample_battery battery_missing_world "battery_measurements"
     = Some (IOError "logs/battery_measurements.log")
  /\ exists w',
       part_000.main decode_scenario decode_sample_battery blank_renderer
         (fun _ => map_order) battery_missing_world
       = (w', Exited "matrix file missing " (IOError "logs/battery_measurements.log")).
Proof.
  assert (Hok : all_pages_ok decode_scenario blank_renderer (fun p => matrix_page map_order)
                  part_000.matrixFiles battery_missing_world).
  { intros name Hin. split; [simpl; apply not_elem_of_empty|].
    exists scenario_matrix. split; [|reflexivity]. simpl in Hin.
    repeat (destruct Hin as [<-|Hin]; [vm_compute; reflexivity|]). destruct Hin. }
  assert (Herr : load_error decode_sample_battery battery_missing_world
                   "battery_measurements"
                 = Some (IOError "logs/battery_measurements.log"))
    by (vm_compute; reflexivity).
  split; [exact Hok|]. split; [now left|]. split; [exact Herr|].
  destruct (battery_failure_after_matrix_pages decode_scenario decode_sample_battery
              blank_renderer (fun _ => map_order) "battery_measurements"
              battery_missing_world _ Hok (or_introl eq_refl) Herr) as (w' & H & _).
  exists w'. exact H.
Defined.

(** A loop over pages stops at the first page whose output cannot be
    created, after the aggregators of that page have been called. *)
Lemma renderAll_create_error {A : Type} (decode : string -> option A) Render page_of aggs
    render pre name post w data :
  page_writer decode Render page_of aggs render ->
  List.NoDup pre -> all_pages_ok decode Render page_of pre w ->
  loaded decode w name = Some data -> htmlPath name ∈ unwritable w ->
  exists w',
    renderAll render (pre ++ name :: post) w
    = (w', Exited "unable to create file " (IOError (htmlPath name)))
    /\ files w' !! htmlPath name = files w !! htmlPath name
    /\ trace w'
       = trace w ++ concat (map (rendered_events aggs) pre) ++ page_events name aggs
           ++ [EvCreate (htmlPath name);
               EvFatal "unable to create file " (IOError (htmlPath name))].
Proof.
  intros Hwr Hnd Hok Hl Hnw.
  destruct (renderAll_ok decode Render page_of aggs render Hwr pre w Hnd Hok)
    as (w1 & Hrun & H1).
  pose proof H1 as (Hc1 & Hf1 & Hr1 & Hw1 & Ht1).
  assert (Hl1 : loaded decode w1 name = Some data).
  { rewrite <- Hl. apply loaded_same_files; [|exact Hr1].
    exact (pages_rendered_logs decode Render page_of aggs pre w w1 name H1). }
  pose proof (Hwr name w1 data Hl1) as Hpage. cbv zeta in Hpage.
  destruct (decide (htmlPath name ∈ unwritable w1)) as [_|Hout];
    [|rewrite Hw1 in Hout; contradiction].
  eexists. split; [|split].
  - rewrite (renderAll_app render pre (name :: post) w w1 Hrun).
    cbn [renderAll]. unfold bind. rewrite Hpage. reflexivity.
  - simpl. apply Hf1. intros p Hp Heq. apply htmlPath_inj in Heq. subst p.
    destruct (Hok name Hp) as [Hnot _]. contradiction.
  - simpl. now rewrite Ht1, <- !app_assoc.
Qed.

(** X5. When the output of a page cannot be created, a run of either program
    ends there with the [IOError] of the output file: the pages before it
    have been rendered, the four aggregators of the page have been called,
    and the output of the page is as it was. *)
Theorem output_not_creatable :
  forall (Um : string -> option matrix) (Ub : string -> option BatteryMeasurements)
         (Render : components.Page -> string * option Error) (rng : string -> Ranges)
         (pre post : list string) (name : string) (w : World) (data : matrix),
    loaded Um w name = Some data ->
    htmlPath name ∈ unwritable w ->
    let err := IOError (htmlPath name) in
    let calls :=
      page_events name matrix_aggregators
        ++ [EvCreate (htmlPath name); EvFatal "unable to create file " err] in
    (main_go.files = pre ++ name :: post ->
     all_pages_ok Um Render (fun p => matrix_page_go (rng p)) pre w ->
     exists w',
       main_go.main Um Render rng w = (w', Exited "unable to create file " err)
       /\ files w' !! htmlPath name = files w !! htmlPath name
       /\ trace w'
          = trace w ++ concat (map (rendered_events matrix_aggregators) pre) ++ calls)
    /\ (part_000.matrixFiles = pre ++ name :: post ->
        all_pages_ok Um Render (fun p => matrix_page (rng p)) pre w ->
        exists w',
          part_000.main Um Ub Render rng w = (w', Exited "unable to create file " err)
          /\ files w' !! htmlPath name = files w !! htmlPath name
          /\ trace w'
             = trace w ++ concat (map (rendered_events matrix_aggregators) pre) ++ calls).
Proof.
  intros Um Ub Render rng pre post name w data Hl Hnw err calls. split.
  - intros Hsplit Hok.
    pose proof files_NoDup as Hnd. rewrite Hsplit in Hnd.
    destruct (renderAll_create_error Um Render _ matrix_aggregators _ pre name post w data
                (renderPage_writer Um Render rng) (NoDup_app_remove_r _ _ Hnd) Hok Hl Hnw)
      as (w' & Hrun & Hf & Ht).
    exists w'. split; [|split; [exact Hf | exact Ht]].
    unfold main_go.main, bind. rewrite Hsplit, Hrun. reflexivity.
  - intros Hsplit Hok.
    pose proof matrixFiles_NoDup as Hnd. rewrite Hsplit in Hnd.
    destruct (renderAll_create_error Um Render _ matrix_aggregators _ pre name post w data
                (renderMatrixPage_writer Um Render rng) (NoDup_app_remove_r _ _ Hnd) Hok
                Hl Hnw)
      as (w' & Hrun & Hf & Ht).
    exists w'. split; [|split; [exact Hf | exact Ht]].
    unfold part_000.main, bind. rewrite Hsplit, Hrun. reflexivity.
Qed.

Lemma output_not_creatable_witness :
  loaded decode_scenario readonly_world "zero_host_downloader" = Some scenario_matrix
  /\ htmlPath "zero_host_downloader" ∈ unwritable readonly_world
  /\ main_go.files = [] ++ "zero_host_downloader"%string :: tl main_go.files
  /\ all_pages_ok decode_scenario blank_renderer (fun p => matrix_page_go map_order) []
       readonly_world
  /\ exists w',
       main_go.main decode_scenario blank_renderer (fun _ => map_order) readonly_world
       = (w', Exited "unable to create file " (IOError "html/zero_host_downloader.html")).
Proof.
  assert (Hl : loaded decode_scenario readonly_world "zero_host_downloader"
               = Some scenario_matrix) by (vm_compute; reflexivity).
  assert (Hnw : htmlPath "zero_host_downloader" ∈ unwritable readonly_world)
    by (simpl; apply elem_of_singleton; reflexivity).
  assert (Hok : all_pages_ok decode_scenario blank_renderer
                  (fun p => matrix_page_go map_order) [] readonly_world)
    by (intros name []).
  split; [exact Hl|]. split; [exact Hnw|]. split; [reflexivity|]. split; [exact Hok|].
  destruct (proj1 (output_not_creatable decode_scenario decode_sample_battery blank_renderer
                     (fun _ => map_order) [] (tl main_go.files) "zero_host_downloader"
                     readonly_world scenario_matrix Hl Hnw)
              eq_refl Hok) as (w' & H & _).
  exists w'. exact H.
Defined.

(** X6. When the charting library fails to render a page, a run of either
    program ends there with its error, logged as a failed page render; the
    output file of the page has been created and holds whatever the
    library wrote before it failed. *)
Theorem render_error_ends_run :
  forall (Um : string -> option matrix) (Ub : string -> option BatteryMeasurements)
         (Render : components.Page -> string * option Error) (rng : string -> Ranges)
         (pre post : list string) (name : string) (w : World) (data : matrix)
         (err : Error),
    loaded Um w name = Some data ->
    htmlPath name ∉ unwritable w ->
    (main_go.files = pre ++ name :: post ->
     all_pages_ok Um Render (fun p => matrix_page_go (rng p)) pre w ->
     snd (Render (matrix_page_go (rng name) data)) = Some err ->
     exists w',
       main_go.main Um Render rng w = (w', Exited "Page render failed " err)
       /\ files w' !! htmlPath name = Some (fst (Render (matrix_page_go (rng name) data))))
    /\ (part_000.matrixFiles = pre ++ name :: post ->
        all_pages_ok Um Render (fun p => matrix_page (rng p)) pre w ->
        snd (Render (matrix_page (rng name) data)) = Some err ->
        exists w',
          part_000.main Um Ub Render rng w = (w', Exited "Page render failed " err)
          /\ files w' !! htmlPath name = Some (fst (Render (matrix_page (rng name) data)))).
Proof.
  intros Um Ub Render rng pre post name w data err Hl Hnw.
  assert (Hnotin : forall names, List.NoDup names -> names = pre ++ name :: post ->
                                 List.NoDup pre /\ ~ In name pre).
  { intros names Hnd ->. split; [exact (NoDup_app_remove_r _ _ Hnd)|].
    apply NoDup_remove_2 in Hnd. intros Hin. apply Hnd, in_or_app. now left. }
  split.
  - intros Hsplit Hok Hre. destruct (Hnotin _ files_NoDup Hsplit) as [Hnd Hn].
    destruct (renderAll_render_error Um Render _ matrix_aggregators _ pre name post w data err
                (renderPage_writer Um Render rng) Hnd Hn Hok Hl Hnw Hre)
      as (w' & Hrun & Hf & _).
    exists w'. split; [|exact Hf].
    unfold main_go.main, bind. rewrite Hsplit, Hrun. reflexivity.
  - intros Hsplit Hok Hre. destruct (Hnotin _ matrixFiles_NoDup Hsplit) as [Hnd Hn].
    destruct (renderAll_render_error Um Render _ matrix_aggregators _ pre name post w data err
                (renderMatrixPage_writer Um Render rng) Hnd Hn Hok Hl Hnw Hre)
      as (w' & Hrun & Hf & _).
    exists w'. split; [|exact Hf].
    unfold part_000.main, bind. rewrite Hsplit, Hrun. reflexivity.
Qed.

Lemma render_error_ends_run_witness :
  loaded decode_scenario full_world "zero_host_downloader" = Some scenario_matrix
  /\ (htmlPath "zero_host_downloader" ∉ unwritable full_world)
  /\ part_000.matrixFiles = [] ++ "zero_host_downloader"%string :: tl part_000.matrixFiles
  /\ all_pages_ok decode_scenario failing_renderer (fun p => matrix_page map_order) []
       full_world
  /\ snd (failing_renderer (matrix_page map_order scenario_matrix)) = Some RenderError
  /\ exists w',
       part_000.main decode_scenario decode_sample_battery failing_renderer
         (fun _ => map_order) full_world
       = (w', Exited "Page render failed " RenderError)
       /\ files w' !! htmlPath "zero_host_downloader" = Some "<html>"%string.
Proof.
  assert (Hl : loaded decode_scenario full_world "zero_host_downloader"
               = Some scenario_matrix) by (vm_compute; reflexivity).
  assert (Hnw : htmlPath "zero_host_downloader" ∉ unwritable full_world)
    by (simpl; apply not_elem_of_empty).
  assert (Hok : all_pages_ok decode_scenario failing_renderer
                  (fun p => matrix_page map_order) [] full_world)
    by (intros name []).
  split; [exact Hl|]. split; [exact Hnw|]. split; [reflexivity|]. split; [exact Hok|].
  split; [reflexivity|].
  exact (proj2 (render_error_ends_run decode_scenario decode_sample_battery failing_renderer
                  (fun _ => map_order) [] (tl part_000.matrixFiles) "zero_host_downloader"
                  full_world scenario_matrix RenderError Hl Hnw)
           eq_refl Hok eq_refl).
Defined.

(** ** What no run does *)

Lemma never_deletes_refl w : never_deletes w w.
Proof. now intros q. Qed.

Lemma never_deletes_trans w1 w2 w3 :
  never_deletes w1 w2 -> never_deletes w2 w3 -> never_deletes w1 w3.
Proof. intros H1 H2 q Hq. now apply H2, H1. Qed.

Lemma never_deletes_record w w' ev : never_deletes w w' -> never_deletes w (record ev w').
Proof. intros H q Hq. now apply H. Qed.

Lemma never_deletes_write w w' path contents :
  never_deletes w w' -> never_deletes w (write path contents w').
Proof.
  intros H q Hq. simpl. destruct (decide (path = q)) as [->|Hne].
  - rewrite lookup_insert_eq. eauto.
  - rewrite lookup_insert_ne by exact Hne. now apply H.
Qed.

Ltac never_deletes_page :=
  repeat first
    [ apply never_deletes_refl | apply never_deletes_write | apply never_deletes_record ].

Lemma renderMatrixPage_never_deletes Um Render rng p w :
  never_deletes w (fst (part_000.renderMatrixPage Um Render rng p w)).
Proof.
  unfold part_000.renderMatrixPage, bind, ReadFile, Unmarshal, aggregate, Create, RenderTo,
    Fatal.
  simpl. repeat case_match; simplify_eq; simpl in *; simplify_eq; never_deletes_page.
Qed.

Lemma renderBatteryMeasurementPage_never_deletes Ub Render p w :
  never_deletes w (fst (part_000.renderBatteryMeasurementPage Ub Render p w)).
Proof.
  unfold part_000.renderBatteryMeasurementPage, bind, ReadFile, Unmarshal, aggregate, Create,
    RenderTo, Fatal.
  simpl. repeat case_match; simplify_eq; simpl in *; simplify_eq; never_deletes_page.
Qed.

Lemma renderPage_never_deletes Um Render rng p w :
  never_deletes w (fst (main_go.renderPage Um Render rng p w)).
Proof.
  unfold main_go.renderPage, bind, ReadFile, Unmarshal, aggregate, Create, RenderTo, Fatal.
  simpl. repeat case_match; simplify_eq; simpl in *; simplify_eq; never_deletes_page.
Qed.

Lemma renderAll_invariant (R : World -> World -> Prop) render names :
  (forall w, R w w) -> (forall w1 w2 w3, R w1 w2 -> R w2 w3 -> R w1 w3) ->
  (forall w w' msg err, R w w' -> R w (record (EvFatal msg err) w')) ->
  (forall p w, In p names -> R w (fst (render p w))) ->
  forall w, R w (fst (renderAll render names w)).
Proof.
  intros Hrefl Htrans Hfatal. induction names as [|p names IH]; intros Hpage w; simpl.
  - apply Hrefl.
  - pose proof (Hpage p w (or_introl eq_refl)) as Hp. unfold bind.
    destruct (render p w) as [w1 [msg err|[e|]]]; simpl in *.
    + exact Hp.
    + now apply Hfatal.
    + apply Htrans with w1; [exact Hp|]. apply IH. intros q w' Hq. apply Hpage. now right.
Qed.

Lemma renderAll_frame render names :
  (forall p w, pages_frame [p] w (fst (render p w))) ->
  forall w, pages_frame names w (fst (renderAll render names w)).
Proof.
  intros Hpage. apply renderAll_invariant.
  - apply pages_frame_refl.
  - apply pages_frame_trans.
  - intros w w' msg err H. apply pages_frame_record; [exact H|].
    intros q [Hq|Hq]; discriminate Hq.
  - intros p w Hin. apply (pages_frame_mono [p]); [|apply Hpage].
    now intros q [<-|[]].
Qed.

Lemma renderAll_never_deletes render names :
  (forall p w, never_deletes w (fst (render p w))) ->
  forall w, never_deletes w (fst (renderAll render names w)).
Proof.
  intros Hpage. apply renderAll_invariant.
  - apply never_deletes_refl.
  - apply never_deletes_trans.
  - intros w w' msg err H. now apply never_deletes_record.
  - intros p w _. apply Hpage.
Qed.

(** X7. Whatever the logs hold and however a run ends, it changes no file
    other than the outputs [html/<name>.html] of the pages of its lists
    (no log in particular), creates and renders no other file, and
    deletes none. *)
Theorem run_touches_outputs_only :
  forall (Um : string -> option matrix) (Ub : string -> option BatteryMeasurements)
         (Render : components.Page -> string * option Error) (rng : string -> Ranges)
         (w : World),
    let touches (names : list string) (w' : World) :=
      (forall q, (forall p, In p names -> q <> htmlPath p) -> files w' !! q = files w !! q)
      /\ (forall name, files w' !! logPath name = files w !! logPath name)
      /\ (forall q, is_Some (files w !! q) -> is_Some (files w' !! q))
      /\ exists evs, trace w' = trace w ++ evs /\
                     (forall q, In (EvCreate q) evs \/ In (EvRender q) evs ->
                                exists p, In p names /\ q = htmlPath p) in
    touches main_go.files (fst (main_go.main Um Render rng w))
    /\ touches (part_000.matrixFiles ++ part_000.batteryMeasurementFiles)
         (fst (part_000.main Um Ub Render rng w)).
Proof.
  intros Um Ub Render rng w touches.
  assert (Hto : forall names w', pages_frame names w w' -> never_deletes w w' ->
                                 touches names w').
  { intros names w' (Hf & _ & _ & evs & Ht & Hc & Hd) Hnd. unfold touches.
    split; [exact Hf|]. split; [|split; [exact Hnd|]].
    - intros name. apply Hf. intros p _ H. symmetry in H. now apply htmlPath_logPath in H.
    - exists evs. split; [exact Ht|]. intros q [Hq|Hq]; auto. }
  assert (Hserve : forall names w1, pages_frame names w w1 ->
                     pages_frame names w (record (EvListenAndServe "localhost:8089") w1)).
  { intros names w1 H. apply pages_frame_record; [exact H|].
    intros q [Hq|Hq]; discriminate Hq. }
  split.
  - pose proof (renderAll_frame _ main_go.files (renderPage_frame Um Render rng) w) as Hf.
    pose proof (renderAll_never_deletes _ main_go.files
                  (renderPage_never_deletes Um Render rng) w) as Hn.
    unfold main_go.main, bind.
    destruct (renderAll (main_go.renderPage Um Render rng) main_go.files w)
      as [w1 [msg err|[]]]; simpl in *; apply Hto; auto.
  - pose proof (renderAll_frame _ part_000.matrixFiles
                  (renderMatrixPage_frame Um Render rng) w) as Hf1.
    pose proof (renderAll_never_deletes _ part_000.matrixFiles
                  (renderMatrixPage_never_deletes Um Render rng) w) as Hn1.
    unfold part_000.main, bind.
    destruct (renderAll (part_000.renderMatrixPage Um Render rng) part_000.matrixFiles w)
      as [w1 [msg err|[]]]; simpl in Hf1, Hn1.
    + apply Hto; [|exact Hn1]. apply (pages_frame_mono part_000.matrixFiles); [|exact Hf1].
      intros p Hp. apply in_or_app. now left.
    + pose proof (renderAll_frame _ part_000.batteryMeasurementFiles
                    (renderBatteryMeasurementPage_frame Ub Render) w1) as Hf2.
      pose proof (renderAll_never_deletes _ part_000.batteryMeasurementFiles
                    (renderBatteryMeasurementPage_never_deletes Ub Render) w1) as Hn2.
      assert (Hf : forall w2, pages_frame part_000.batteryMeasurementFiles w1 w2 ->
                     pages_frame (part_000.matrixFiles ++ part_000.batteryMeasurementFiles)
                       w w2).
      { intros w2 H2. apply pages_frame_trans with w1.
        - apply (pages_frame_mono part_000.matrixFiles); [|exact Hf1].
          intros p Hp. apply in_or_app. now left.
        - apply (pages_frame_mono part_000.batteryMeasurementFiles); [|exact H2].
          intros p Hp. apply in_or_app. now right. }
      destruct (renderAll (part_000.renderBatteryMeasurementPage Ub Render)
                  part_000.batteryMeasurementFiles w1) as [w2 [msg err|[]]];
        simpl in Hf2, Hn2; simpl; apply Hto; auto.
      * now apply never_deletes_trans with w1.
      * apply never_deletes_record. now apply never_deletes_trans with w1.
Qed.

(** * Further properties of the aggregators *)

(** X9. When no timestamp is negative the subtraction of [bleToWifi] never
    wraps around: every point of the series is the integer difference
    [WifiConnectedAt - BLEDiscoveredAt] of its entry, which may be
    negative. *)
Theorem bleToWifi_exact_delays :
  forall nodes : list (string * DiscoveredNodeMatrix.t),
    (forall k, In k (history_entries nodes) -> unix_times k) ->
    let exact k :=
      opts.Build_LineData
        (VInt64 (ConnectionInfo.WifiConnectedAt k - ConnectionInfo.BLEDiscoveredAt k)) in
    series "BLE to Wifi" (part_000.bleToWifi nodes)
    = Some (map exact (List.filter wifi_connected (history_entries nodes)))
    /\ series "BLE to Wifi" (main_go.bleToWifi nodes)
       = Some (map exact (List.filter wifi_connected (history_entries nodes))).
Proof.
  intros nodes Htimes exact.
  destruct (bleToWifi_chart nodes) as (_ & Hs & _ & Hm). cbv zeta in Hs, Hm.
  rewrite (series_same _ _ _ Hm), Hs, bleToWifi_loop_spec, emit_all_nil. simpl.
  rewrite map_map.
  assert (Hext : map (fun k => opts.Build_LineData (wifi_delay k))
                   (List.filter wifi_connected (history_entries nodes))
                 = map exact (List.filter wifi_connected (history_entries nodes))).
  { apply map_ext_in. intros k Hk. apply filter_In in Hk as [Hk _].
    destruct (Htimes k Hk) as [Hb Hw]. unfold exact, wifi_delay, sub64.
    rewrite wrap64_small; [reflexivity|]. unfold in_int64. lia. }
  rewrite Hext. split; reflexivity.
Qed.

Lemma bleToWifi_exact_delays_witness :
  (forall k, In k (history_entries scenario_nodes) -> unix_times k)
  /\ series "BLE to Wifi" (part_000.bleToWifi scenario_nodes)
     = Some [opts.Build_LineData (VInt64 (105 - 100))].
Proof.
  assert (H : forall k, In k (history_entries scenario_nodes) -> unix_times k).
  { intros k Hk. simpl in Hk.
    repeat (destruct Hk as [<-|Hk]; [unfold unix_times; simpl; lia|]). destruct Hk. }
  split; [exact H|]. exact (proj1 (bleToWifi_exact_delays scenario_nodes H)).
Defined.

Lemma length_filter_le {A : Type} (p : A -> bool) (l : list A) :
  (length (List.filter p l) <= length l)%nat.
Proof. induction l as [|a l IH]; simpl; [lia|]. destruct (p a); simpl; lia. Qed.

Lemma length_filter_all {A : Type} (p : A -> bool) (l : list A) :
  length (List.filter p l) = length l <-> forall a, In a l -> p a = true.
Proof.
  induction l as [|a l IH]; simpl; [tauto|].
  pose proof (length_filter_le p l) as Hle. destruct (p a) eqn:E; simpl.
  - split.
    + intros H b [<-|Hb]; [exact E|]. apply IH; [lia | exact Hb].
    + intros H. f_equal. apply IH. intros b Hb. apply H. now right.
  - split; [lia|]. intros H. rewrite (H a (or_introl eq_refl)) in E. discriminate.
Qed.

(** X10. For the same [NodeMatrix], in whatever orders the two loops visit it,
    the "BLE to Wifi" series never has more points than the "RSSI Speed"
    series, and it has as many exactly when no entry of a connection
    history has [WifiConnectedAt = 0]. *)
Theorem wifi_points_among_rssi_points :
  forall (data : matrix) (nodes1 nodes2 : list (string * DiscoveredNodeMatrix.t)),
    ranges (NodeMatrix data) nodes1 ->
    ranges (NodeMatrix data) nodes2 ->
    exists ys ps,
      series "BLE to Wifi" (part_000.bleToWifi nodes1) = Some ys
      /\ series "RSSI Speed" (part_000.rssiSpeed nodes2) = Some ps
      /\ (length ys <= length ps)%nat
      /\ (length ys = length ps <->
          forall id v k, NodeMatrix data !! id = Some v ->
                         In k (DiscoveredNodeMatrix.ConnectionHistory v) ->
                         ConnectionInfo.WifiConnectedAt k <> 0).
Proof.
  intros data nodes1 nodes2 Hr1 Hr2.
  destruct (bleToWifi_chart nodes1) as (_ & Hs & _). cbv zeta in Hs.
  destruct (rssiSpeed_chart nodes2) as [Hp _].
  do 2 eexists. split; [exact Hs|]. split; [exact Hp|].
  rewrite bleToWifi_loop_spec, emit_all_nil, rssiSpeed_loop_spec. cbn [snd].
  rewrite !length_map.
  assert (Hlen : length (history_entries nodes2) = length (history_entries nodes1)).
  { unfold history_entries. rewrite !length_flat_map_sum.
    rewrite (total_ranges (fun v => length (DiscoveredNodeMatrix.ConnectionHistory v))
               _ _ Hr1).
    exact (total_ranges (fun v => length (DiscoveredNodeMatrix.ConnectionHistory v))
             _ _ Hr2). }
  rewrite Hlen. split; [apply length_filter_le|].
  rewrite length_filter_all. unfold history_entries. split.
  - intros H id v k Hl Hk. apply wifi_connected_iff, H, in_flat_map.
    exists (id, v). split; [|exact Hk]. now apply (ranges_elem _ _ _ _ Hr1).
  - intros H k Hk. apply in_flat_map in Hk as ([id v] & Hin & Hk).
    apply wifi_connected_iff, (H id v); [|exact Hk].
    now apply (ranges_elem _ _ _ _ Hr1).
Qed.

Lemma wifi_points_among_rssi_points_witness :
  ranges (NodeMatrix two_nodes_matrix) two_nodes_order1
  /\ ranges (NodeMatrix two_nodes_matrix) two_nodes_order2
  /\ exists ys ps,
       series "BLE to Wifi" (part_000.bleToWifi two_nodes_order1) = Some ys
       /\ series "RSSI Speed" (part_000.rssiSpeed two_nodes_order2) = Some ps
       /\ (length ys <= length ps)%nat.
Proof.
  assert (Hr1 : ranges (NodeMatrix two_nodes_matrix) two_nodes_order1)
    by (unfold ranges; vm_compute; first [reflexivity | apply perm_swap]).
  assert (Hr2 : ranges (NodeMatrix two_nodes_matrix) two_nodes_order2)
    by (unfold ranges; vm_compute; first [reflexivity | apply perm_swap]).
  split; [exact Hr1|]. split; [exact Hr2|].
  destruct (wifi_points_among_rssi_points two_nodes_matrix _ _ Hr1 Hr2)
    as (ys & ps & H1 & H2 & H3 & _).
  exists ys, ps. auto.
Defined.

Lemma seq_shifted a b n :
  map Z.of_nat (seq (n + a) b) = map (fun x => Z.of_nat x + Z.of_nat a) (seq n b).
Proof.
  revert n. induction b as [|b IH]; intros n; simpl; [reflexivity|].
  f_equal; [lia|]. apply (IH (S n)).
Qed.

Lemma counter_app a b :
  counter (a + b) = counter a ++ map (fun x => x + Z.of_nat a) (counter b).
Proof.
  unfold counter. rewrite seq_app, map_app, map_map. f_equal. apply (seq_shifted a b 0).
Qed.

(** X11. The three loops over [NodeMatrix] work node after node: the series
    for a visit that continues another one is the series of the first
    visit followed by that of the second, and the x-axis goes on counting
    where the first visit stopped (the counter is not reset per node). *)
Theorem visits_concatenate :
  forall nodes1 nodes2 : list (string * DiscoveredNodeMatrix.t),
    let continues (name : string) (chart : list _ -> charts.Line) :=
      exists ys1 ys2,
        series name (chart nodes1) = Some ys1
        /\ series name (chart nodes2) = Some ys2
        /\ series name (chart (nodes1 ++ nodes2)) = Some (ys1 ++ ys2)
        /\ charts.XAxis (chart (nodes1 ++ nodes2))
           = charts.XAxis (chart nodes1)
               ++ map (fun x => x + Z.of_nat (length ys1)) (charts.XAxis (chart nodes2)) in
    continues "BLE to Wifi" part_000.bleToWifi
    /\ continues "BLE to IPFS" part_000.bleToIpfs
    /\ continues "BLE to Wifi" main_go.bleToWifi
    /\ continues "BLE to IPFS" main_go.bleToIpfs
    /\ series "RSSI Speed" (part_000.rssiSpeed (nodes1 ++ nodes2))
       = Some (rssiSpeed_loop nodes1 ++ rssiSpeed_loop nodes2)
    /\ series "RSSI Speed" (main_go.rssiSpeed (nodes1 ++ nodes2))
       = Some (rssiSpeed_loop nodes1 ++ rssiSpeed_loop nodes2).
Proof.
  intros nodes1 nodes2 continues.
  assert (Hemit : forall vs1 vs2,
            snd (emit_all (vs1 ++ vs2) ([], []))
            = snd (emit_all vs1 ([], [])) ++ snd (emit_all vs2 ([], []))
            /\ fst (emit_all (vs1 ++ vs2) ([], []))
               = fst (emit_all vs1 ([], []))
                   ++ map (fun x => x + Z.of_nat (length (snd (emit_all vs1 ([], [])))))
                        (fst (emit_all vs2 ([], [])))).
  { intros vs1 vs2. rewrite !emit_all_nil. cbn [fst snd].
    rewrite map_app, length_app, !length_map, counter_app. split; reflexivity. }
  assert (Hw : forall n1 n2,
            List.filter wifi_connected (history_entries (n1 ++ n2))
            = List.filter wifi_connected (history_entries n1)
                ++ List.filter wifi_connected (history_entries n2)).
  { intros n1 n2. unfold history_entries. now rewrite flat_map_app, List.filter_app. }
  assert (H1 : continues "BLE to Wifi"%string part_000.bleToWifi).
  { destruct (bleToWifi_chart nodes1) as (Hx1 & Hs1 & _).
    destruct (bleToWifi_chart nodes2) as (Hx2 & Hs2 & _).
    destruct (bleToWifi_chart (nodes1 ++ nodes2)) as (Hx & Hs & _). cbv zeta in *.
    do 2 eexists. split; [exact Hs1|]. split; [exact Hs2|].
    rewrite Hs, Hx, Hx1, Hx2, !bleToWifi_loop_spec, Hw, map_app.
    destruct (Hemit (map wifi_delay (List.filter wifi_connected (history_entries nodes1)))
                (map wifi_delay (List.filter wifi_connected (history_entries nodes2))))
      as [-> ->].
    split; reflexivity. }
  assert (H2 : continues "BLE to IPFS"%string part_000.bleToIpfs).
  { destruct (bleToIpfs_chart nodes1) as (Hx1 & Hs1 & _).
    destruct (bleToIpfs_chart nodes2) as (Hx2 & Hs2 & _).
    destruct (bleToIpfs_chart (nodes1 ++ nodes2)) as (Hx & Hs & _). cbv zeta in *.
    do 2 eexists. split; [exact Hs1|]. split; [exact Hs2|].
    rewrite Hs, Hx, Hx1, Hx2, !bleToIpfs_loop_spec.
    unfold delay_entries. rewrite flat_map_app, map_app.
    destruct (Hemit (map VInt64 (flat_map (fun v => DiscoveredNodeMatrix.DiscoveryDelays (snd v))
                                   nodes1))
                (map VInt64 (flat_map (fun v => DiscoveredNodeMatrix.DiscoveryDelays (snd v))
                               nodes2)))
      as [-> ->].
    split; reflexivity. }
  assert (Hgo : forall name (c c' : list _ -> charts.Line),
            (forall n, charts.XAxis (c' n) = charts.XAxis (c n) /\
                       charts.MultiSeries (c' n) = charts.MultiSeries (c n)) ->
            continues name c -> continues name c').
  { intros name c c' Hsame (ys1 & ys2 & Ha & Hb & Hc & Hd). exists ys1, ys2.
    destruct (Hsame nodes1) as [Hx1 Hm1]. destruct (Hsame nodes2) as [Hx2 Hm2].
    destruct (Hsame (nodes1 ++ nodes2)) as [Hx Hm].
    rewrite (series_same _ _ _ Hm1), (series_same _ _ _ Hm2), (series_same _ _ _ Hm),
      Hx, Hx1, Hx2.
    auto. }
  split; [exact H1|]. split; [exact H2|]. split; [|split; [|split]].
  - apply (Hgo _ _ _ (fun n => proj2 (proj2 (bleToWifi_chart n))) H1).
  - apply (Hgo _ _ _ (fun n => proj2 (proj2 (bleToIpfs_chart n))) H2).
  - destruct (rssiSpeed_chart (nodes1 ++ nodes2)) as [-> _].
    rewrite !rssiSpeed_loop_spec. unfold history_entries.
    now rewrite flat_map_app, map_app.
  - destruct (rssiSpeed_chart (nodes1 ++ nodes2)) as [_ ->].
    rewrite !rssiSpeed_loop_spec. unfold history_entries.
    now rewrite flat_map_app, map_app.
Qed.

(** X12. A node without discovery delays and without a connected entry in its
    history leaves the two line charts as they are without it, x-axis
    included; a node with an empty history leaves the "RSSI Speed" chart
    as it is. *)
Theorem node_without_points :
  forall (nodes1 nodes2 : list (string * DiscoveredNodeMatrix.t)) (id : string)
         (v : DiscoveredNodeMatrix.t),
    ((forall k, In k (DiscoveredNodeMatrix.ConnectionHistory v) ->
                ConnectionInfo.WifiConnectedAt k = 0) ->
     part_000.bleToWifi (nodes1 ++ (id, v) :: nodes2) = part_000.bleToWifi (nodes1 ++ nodes2)
     /\ main_go.bleToWifi (nodes1 ++ (id, v) :: nodes2) = main_go.bleToWifi (nodes1 ++ nodes2))
    /\ (DiscoveredNodeMatrix.DiscoveryDelays v = [] ->
        part_000.bleToIpfs (nodes1 ++ (id, v) :: nodes2) = part_000.bleToIpfs (nodes1 ++ nodes2)
        /\ main_go.bleToIpfs (nodes1 ++ (id, v) :: nodes2)
           = main_go.bleToIpfs (nodes1 ++ nodes2))
    /\ (DiscoveredNodeMatrix.ConnectionHistory v = [] ->
        part_000.rssiSpeed (nodes1 ++ (id, v) :: nodes2) = part_000.rssiSpeed (nodes1 ++ nodes2)
        /\ main_go.rssiSpeed (nodes1 ++ (id, v) :: nodes2)
           = main_go.rssiSpeed (nodes1 ++ nodes2)).
Proof.
  intros nodes1 nodes2 id v. split; [|split].
  - intros Hnone.
    assert (Hf : List.filter wifi_connected (DiscoveredNodeMatrix.ConnectionHistory v) = []).
    { induction (DiscoveredNodeMatrix.ConnectionHistory v) as [|k h IH]; [reflexivity|].
      simpl. unfold wifi_connected at 1. rewrite (Hnone k (or_introl eq_refl)). simpl.
      apply IH. intros k' Hk'. apply Hnone. now right. }
    assert (Hloop : bleToWifi_loop (nodes1 ++ (id, v) :: nodes2)
                    = bleToWifi_loop (nodes1 ++ nodes2)).
    { rewrite !bleToWifi_loop_spec. unfold history_entries.
      rewrite !flat_map_app. simpl. now rewrite !List.filter_app, Hf. }
    unfold part_000.bleToWifi, main_go.bleToWifi. rewrite Hloop. split; reflexivity.
  - intros Hnone.
    assert (Hloop : bleToIpfs_loop (nodes1 ++ (id, v) :: nodes2)
                    = bleToIpfs_loop (nodes1 ++ nodes2)).
    { rewrite !bleToIpfs_loop_spec. unfold delay_entries.
      rewrite !flat_map_app. simpl. now rewrite Hnone. }
    unfold part_000.bleToIpfs, main_go.bleToIpfs. rewrite Hloop. split; reflexivity.
  - intros Hnone.
    assert (Hloop : rssiSpeed_loop (nodes1 ++ (id, v) :: nodes2)
                    = rssiSpeed_loop (nodes1 ++ nodes2)).
    { rewrite !rssiSpeed_loop_spec. unfold history_entries.
      rewrite !flat_map_app. simpl. now rewrite Hnone. }
    unfold part_000.rssiSpeed, main_go.rssiSpeed. rewrite Hloop. split; reflexivity.
Qed.

Lemma node_without_points_witness :
  DiscoveredNodeMatrix.DiscoveryDelays (node [] []) = []
  /\ part_000.bleToIpfs (scenario_nodes ++ ("QmEmpty"%string, node [] []) :: [])
     = part_000.bleToIpfs (scenario_nodes ++ []).
Proof.
  split; [reflexivity|].
  exact (proj1 (proj1 (proj2 (node_without_points scenario_nodes [] "QmEmpty" (node [] [])))
                  eq_refl)).
Defined.

(** X13. The battery chart never has more bars than there are measurements:
    the bars of its two series and the measurements whose [DataTransfer]
    is neither ["10"] nor ["100"] add up to the measurements, so that no
    measurement is counted twice and the chart has a bar for every
    measurement exactly when every [DataTransfer] is one of the two. *)
Theorem battery_bars_count :
  forall data : BatteryMeasurements,
    let ms := BatteryMeasurement data in
    let other v := negb (transfers "10" v) && negb (transfers "100" v) in
    exists ten hundred,
      charts.MultiSeries (part_000.transferIntervalToBatteryPercentage data)
      = [("10Mb"%string, ten); ("100Mb"%string, hundred)]
      /\ (length ten + length hundred + length (List.filter other ms) = length ms)%nat
      /\ ((length ten + length hundred = length ms)%nat <->
          forall v, In v ms ->
                    Measurement.DataTransfer v = "10"%string \/
                    Measurement.DataTransfer v = "100"%string).
Proof.
  intros data ms other. rewrite battery_chart. do 2 eexists. split; [reflexivity|].
  fold ms. rewrite !length_map.
  assert (Hexcl : forall v, transfers "10" v = true -> transfers "100" v = false).
  { intros v H. unfold transfers in *. apply String.eqb_eq in H. now rewrite H. }
  assert (Hsum : (length (List.filter (transfers "10") ms)
                  + length (List.filter (transfers "100") ms)
                  + length (List.filter other ms) = length ms)%nat).
  { induction ms as [|v l IH]; [reflexivity|]. cbn [List.filter]. subst other. cbv beta.
    destruct (transfers "10" v) eqn:E10.
    - rewrite (Hexcl v E10). cbn [negb andb length]. cbv beta in IH. lia.
    - destruct (transfers "100" v); cbn [negb andb length]; cbv beta in IH; lia. }
  split; [exact Hsum|].
  assert (Hother : length (List.filter other ms) = 0%nat <->
                   forall v, In v ms ->
                             Measurement.DataTransfer v = "10"%string \/
                             Measurement.DataTransfer v = "100"%string).
  { clear Hsum. subst other. cbv beta.
    induction ms as [|v l IH]; [simpl; tauto|]. cbn [List.filter].
    assert (Hv : negb (transfers "10" v) && negb (transfers "100" v) = false <->
                 Measurement.DataTransfer v = "10"%string \/
                 Measurement.DataTransfer v = "100"%string).
    { unfold transfers.
      destruct (String.eqb_spec (Measurement.DataTransfer v) "10");
        destruct (String.eqb_spec (Measurement.DataTransfer v) "100"); simpl;
        intuition discriminate. }
    destruct (negb (transfers "10" v) && negb (transfers "100" v)); cbn [length].
    - split; [discriminate|]. intros H.
      now apply Hv in H; [discriminate H | left].
    - rewrite IH. split.
      + intros H a [<-|Ha]; [now apply Hv | now apply H].
      + intros H a Ha. apply H. now right. }
  rewrite <- Hother. lia.
Qed.

(** ** The values of the download-speed series *)

Lemma binary_round_aux_shape sx mz ez lz k :
  0 <= k <= 400 -> 0 <= mz < 2 ^ k -> ez <= 0 ->
  finite_of_sign sx (binary_round_aux 53 1024 sx mz ez lz).
Proof.
  intros Hk Hmz Hez.
  pose proof (binary_round_aux_no_overflow sx mz ez lz k Hk Hmz Hez) as Hinf.
  unfold binary_round_aux in *.
  destruct (shr_fexp_bound 53 1024 mz ez lz (proj1 Hmz)) as [Hm1 _].
  destruct (shr_fexp 53 1024 mz ez lz) as [mrs' e']. simpl in Hm1.
  pose proof (round_nearest_even_bound (shr_m mrs') (loc_of_shr_record mrs')) as Hrne.
  set (m1 := round_nearest_even (shr_m mrs') (loc_of_shr_record mrs')) in *.
  destruct (shr_fexp_bound 53 1024 m1 e' loc_Exact ltac:(lia)) as [Hm2 _].
  destruct (shr_fexp 53 1024 m1 e' loc_Exact) as [mrs'' e'']. simpl in Hm2.
  destruct (shr_m mrs'') as [|p|p]; [now left| |lia].
  destruct (e'' <=? 1024 - 53); [right; eauto|]. now contradiction (Hinf sx).
Qed.

Lemma tenths_as_float64_shape sx p :
  Z.pos p < 2 ^ 132 ->
  finite_of_sign sx (SFdiv 53 1024 (S754_finite sx p 0) (S754_finite false 10 0)).
Proof.
  intros Hp. unfold SFdiv, SFdiv_core_binary.
  pose proof (Zdigits2_bound (Z.pos p) 132 ltac:(lia) ltac:(lia)) as Hd.
  assert (Hd1 : 1 <= Zdigits2 (Z.pos p)) by (simpl; lia).
  change (Zdigits2 10) with 4.
  set (e' := Z.min (fexp 53 1024 (Zdigits2 (Z.pos p) + 0 - (4 + 0))) (0 - 0)).
  assert (He' : - 56 <= e' <= 0) by (unfold e', fexp, emin; lia).
  set (m' := match 0 - 0 - e' with
             | Z.pos _ => Z.shiftl (Z.pos p) (0 - 0 - e')
             | 0 => Z.pos p
             | Z.neg _ => 0
             end).
  assert (Hm' : 0 <= m' < 2 ^ 188).
  { assert (Hsh : 0 <= Z.pos p * 2 ^ (0 - 0 - e') < 2 ^ 188).
    { assert (H2 : 0 < 2 ^ (0 - 0 - e') <= 2 ^ 56).
      { split; [apply Z.pow_pos_nonneg; lia | apply Z.pow_le_mono_r; lia]. }
      change (2 ^ 188) with (2 ^ 132 * 2 ^ 56). nia. }
    unfold m'. destruct (0 - 0 - e') as [|q|q] eqn:Es.
    - lia.
    - rewrite Z.shiftl_mul_pow2 by lia. exact Hsh.
    - lia. }
  pose proof (Z_div_mod m' 10 ltac:(lia)) as Hdiv.
  destruct (Z.div_eucl m' 10) as [q r].
  rewrite xorb_false_r. apply (binary_round_aux_shape _ _ _ _ 188); lia.
Qed.

Lemma round_one_decimal_shape s x :
  valid_binary 24 128 x = true -> finite_of_sign s x ->
  finite_of_sign s (round_one_decimal x).
Proof.
  intros Hv [->|(m & e & ->)]; [now left|].
  simpl in Hv. pose proof (float32_tenths_bound m e Hv) as Ht.
  unfold round_one_decimal, decimal_to_float.
  destruct (tenths m e) as [|p]; [now left|].
  change (10 ^ 1)%positive with 10%positive.
  pose proof (tenths_as_float64_shape s p Ht) as Hshape.
  now destruct (SFdiv 53 1024 (S754_finite s p 0) (S754_finite false 10 0)).
Qed.

(** X14. For a log whose [AvgSpeed]s are [float32] numbers (no infinity, no
    NaN), every point of the "Download Speed" series is a finite [float64]
    or a zero, with the sign of its [AvgSpeed]: a small negative speed
    becomes the negative zero, never a positive number. *)
Theorem downloadSpeed_values_finite :
  forall contents : list (string * ContentMatrix.t),
    (forall kv, In kv contents ->
       valid_binary 24 128 (ContentMatrix.AvgSpeed (snd kv)) = true /\
       exists s, finite_of_sign s (ContentMatrix.AvgSpeed (snd kv))) ->
    exists ys,
      series "Download Speed" (part_000.downloadSpeed contents) = Some ys
      /\ series "Download Speed" (main_go.downloadSpeed contents) = Some ys
      /\ Forall2 (fun kv y =>
                    exists f, yvalue y = VFloat64 f /\
                              forall s, finite_of_sign s (ContentMatrix.AvgSpeed (snd kv)) ->
                                        finite_of_sign s f)
           contents ys.
Proof.
  intros contents Hvalid.
  destruct (downloadSpeed_chart contents) as (_ & Hs & _ & Hm). cbv zeta in Hs, Hm.
  eexists. split; [exact Hs|]. split; [now rewrite (series_same _ _ _ Hm)|].
  rewrite downloadSpeed_loop_spec, emit_all_nil. cbn [snd]. rewrite map_map.
  clear Hs Hm. induction contents as [|kv contents IH]; [constructor|].
  cbn [map]. constructor.
  - eexists. split; [reflexivity|]. intros s Hsx. rewrite reparse_round_one_decimal.
    apply round_one_decimal_shape; [|exact Hsx]. apply (Hvalid kv). now left.
  - apply IH. intros kv' Hin. apply Hvalid. now right.
Qed.

Lemma downloadSpeed_values_finite_witness :
  (forall kv, In kv content_order ->
     valid_binary 24 128 (ContentMatrix.AvgSpeed (snd kv)) = true /\
     exists s, finite_of_sign s (ContentMatrix.AvgSpeed (snd kv)))
  /\ exists ys, series "Download Speed" (part_000.downloadSpeed content_order) = Some ys.
Proof.
  assert (H : forall kv, In kv content_order ->
                valid_binary 24 128 (ContentMatrix.AvgSpeed (snd kv)) = true /\
                exists s, finite_of_sign s (ContentMatrix.AvgSpeed (snd kv))).
  { intros kv [<-|[]]. split; [vm_compute; reflexivity|].
    exists false. right. vm_compute. eauto. }
  split; [exact H|].
  destruct (downloadSpeed_values_finite content_order H) as (ys & Hs & _).
  exists ys. exact Hs.
Defined.

(** ** What the matrix aggregators read *)

Lemma flat_map_Forall2 {A B : Type} (R : B -> B -> Prop) (f : A -> list B) (l l' : list A) :
  Forall2 (fun a a' => Forall2 R (f a) (f a')) l l' ->
  Forall2 R (flat_map f l) (flat_map f l').
Proof.
  induction 1 as [|a a' l l' Ha _ IH]; simpl; [constructor|].
  now apply Forall2_app.
Qed.

Lemma map_Forall2_eq {A B : Type} (R : A -> A -> Prop) (f : A -> B) (l l' : list A) :
  (forall a a', R a a' -> f a = f a') -> Forall2 R l l' -> map f l = map f l'.
Proof.
  intros Hf. induction 1 as [|a a' l l' Ha _ IH]; simpl; [reflexivity|].
  now rewrite (Hf a a' Ha), IH.
Qed.

Lemma wifi_points_agree (h h' : list ConnectionInfo.t) :
  Forall2 same_times h h' ->
  map wifi_delay (List.filter wifi_connected h)
  = map wifi_delay (List.filter wifi_connected h').
Proof.
  induction 1 as [|k k' h h' [Hb Hw] _ IH]; simpl; [reflexivity|].
  replace (wifi_connected k) with (wifi_connected k')
    by (unfold wifi_connected; now rewrite Hw).
  destruct (wifi_connected k'); [|exact IH].
  simpl. rewrite IH. f_equal. unfold wifi_delay. now rewrite Hb, Hw.
Qed.

(** X15. Each matrix chart is a function of the fields its loop reads and of
    nothing else: the "BLE to Wifi" chart of the two timestamps of the
    history entries, the "RSSI Speed" chart of their [RSSI] and [Speed],
    the "BLE to IPFS" chart of the [DiscoveryDelays], the
    "Download Speed" chart of the [AvgSpeed]s.  Node ids, content tags,
    the node's own snapshot of the last connection and every other field
    can change without changing the chart. *)
Theorem charts_read_only_their_fields :
  forall (nodes nodes' : list (string * DiscoveredNodeMatrix.t))
         (contents contents' : list (string * ContentMatrix.t)),
    (histories_agree same_times nodes nodes' ->
     part_000.bleToWifi nodes = part_000.bleToWifi nodes'
     /\ main_go.bleToWifi nodes = main_go.bleToWifi nodes')
    /\ (histories_agree same_signal nodes nodes' ->
        part_000.rssiSpeed nodes = part_000.rssiSpeed nodes'
        /\ main_go.rssiSpeed nodes = main_go.rssiSpeed nodes')
    /\ (map (fun v => DiscoveredNodeMatrix.DiscoveryDelays (snd v)) nodes
        = map (fun v => DiscoveredNodeMatrix.DiscoveryDelays (snd v)) nodes' ->
        part_000.bleToIpfs nodes = part_000.bleToIpfs nodes'
        /\ main_go.bleToIpfs nodes = main_go.bleToIpfs nodes')
    /\ (map (fun v => ContentMatrix.AvgSpeed (snd v)) contents
        = map (fun v => ContentMatrix.AvgSpeed (snd v)) contents' ->
        part_000.downloadSpeed contents = part_000.downloadSpeed contents'
        /\ main_go.downloadSpeed contents = main_go.downloadSpeed contents').
Proof.
  intros nodes nodes' contents contents'. split; [|split; [|split]].
  - intros Hagree.
    assert (Hloop : bleToWifi_loop nodes = bleToWifi_loop nodes').
    { rewrite !bleToWifi_loop_spec. f_equal. apply wifi_points_agree.
      unfold history_entries. now apply flat_map_Forall2. }
    unfold part_000.bleToWifi, main_go.bleToWifi. rewrite Hloop. split; reflexivity.
  - intros Hagree.
    assert (Hloop : rssiSpeed_loop nodes = rssiSpeed_loop nodes').
    { rewrite !rssiSpeed_loop_spec.
      apply (map_Forall2_eq same_signal).
      - intros k k' [Hr Hs]. unfold rssi_speed_point. now rewrite Hr, Hs.
      - unfold history_entries. now apply flat_map_Forall2. }
    unfold part_000.rssiSpeed, main_go.rssiSpeed. rewrite Hloop. split; reflexivity.
  - intros Hd.
    assert (Hloop : bleToIpfs_loop nodes = bleToIpfs_loop nodes').
    { rewrite !bleToIpfs_loop_spec. f_equal. f_equal. unfold delay_entries.
      rewrite !flat_map_concat_map. now rewrite Hd. }
    unfold part_000.bleToIpfs, main_go.bleToIpfs. rewrite Hloop. split; reflexivity.
  - intros Hs.
    assert (Hloop : downloadSpeed_loop contents = downloadSpeed_loop contents').
    { rewrite !downloadSpeed_loop_spec. f_equal.
      rewrite <- !(map_map (fun v => ContentMatrix.AvgSpeed (snd v)) speed_value).
      now rewrite Hs. }
    unfold part_000.downloadSpeed, main_go.downloadSpeed. rewrite Hloop. split; reflexivity.
Qed.

Lemma charts_read_only_their_fields_witness :
  histories_agree same_times scenario_nodes [("renamed"%string, scenario_node_renamed)]
  /\ part_000.bleToWifi scenario_nodes
     = part_000.bleToWifi [("renamed"%string, scenario_node_renamed)].
Proof.
  assert (H : histories_agree same_times scenario_nodes
                [("renamed"%string, scenario_node_renamed)])
    by (repeat constructor).
  split; [exact H|].
  exact (proj1 (proj1 (charts_read_only_their_fields scenario_nodes
                         [("renamed"%string, scenario_node_renamed)] [] [])
                  H)).
Defined.
